(** * PatchMon agent: package inventory reconciliation

    A shallow embedding of the package collection code of the agent
    (package [packages]: the reconciler [CombinePackageData], the APT and
    DNF output parsers, the Windows Update search) and the properties of
    it that the specification states.

    Go strings are byte sequences; they are modelled by [string] (a list
    of 8-bit [ascii]).  A Go [map[string]T] is a [gmap string T]; the
    order in which [range] visits a map is not fixed by the language, so
    each loop over a map takes the visiting order as an argument. *)

From Stdlib Require Import Ascii.
From stdpp Require Import gmap strings list fin_maps pretty.

(** ** pkg/models *)

Module models.

(** [models.Package] *)
Record Package : Type := mkPackage {
  Name : string;
  Description : string;
  CurrentVersion : string;
  AvailableVersion : string;
  NeedsUpdate : bool;
  IsSecurityUpdate : bool
}.

#[export] Instance Package_eq_dec : EqDecision Package.
Proof. solve_decision. Defined.

#[export] Instance Package_inhabited : Inhabited Package :=
  populate (mkPackage "" "" "" "" false false).

(** The invariant the specification states for the packages of a
    final list: installed with a current version, or to be updated with
    an available version. *)
Definition versionInvariant (p : Package) : Prop :=
  (NeedsUpdate p = false ∧ CurrentVersion p ≠ "")
  ∨ (NeedsUpdate p = true ∧ AvailableVersion p ≠ "").

End models.

Import models.

(** ** Go's [strings], [unicode] and [bufio] functions that the parsers call *)

Module strings.

Definition byte (c : ascii) : N := N_of_ascii c.

(** [unicode.IsSpace], read off the UTF-8 encoding of a rune: the
    one-byte spaces TAB, LF, VT, FF, CR and SPACE; U+0085 and U+00A0;
    and U+1680, U+2000..U+200A, U+2028, U+2029, U+202F, U+205F, U+3000. *)
Definition isSpace1 (a : ascii) : bool :=
  ((9 <=? byte a) && (byte a <=? 13) || (byte a =? 32))%N.

Definition isSpace2 (a b : ascii) : bool :=
  ((byte a =? 0xC2) && ((byte b =? 0x85) || (byte b =? 0xA0)))%N.

Definition isSpace3 (a b c : ascii) : bool :=
  ((byte a =? 0xE1) && (byte b =? 0x9A) && (byte c =? 0x80)
   || (byte a =? 0xE2) && (byte b =? 0x80)
      && ((0x80 <=? byte c) && (byte c <=? 0x8A)
          || (byte c =? 0xA8) || (byte c =? 0xA9) || (byte c =? 0xAF))
   || (byte a =? 0xE2) && (byte b =? 0x81) && (byte c =? 0x9F)
   || (byte a =? 0xE3) && (byte b =? 0x80) && (byte c =? 0x80))%N.

(** A string cut into white-space runes and the bytes between them.
    The first byte of an encoded space is never a continuation byte, so
    reading the encodings off from the left finds every space rune that
    Go's decoder finds, from either end, also in ill-formed input. *)
Inductive piece : Type :=
  | WS (enc : string)
  | Ch (c : ascii).

Fixpoint pieces (s : string) : list piece :=
  match s with
  | EmptyString => []
  | String a s1 =>
      if isSpace1 a then WS (String a "") :: pieces s1
      else match s1 with
           | EmptyString => [Ch a]
           | String b s2 =>
               if isSpace2 a b then WS (String a (String b "")) :: pieces s2
               else match s2 with
                    | EmptyString => Ch a :: pieces s1
                    | String c s3 =>
                        if isSpace3 a b c
                        then WS (String a (String b (String c ""))) :: pieces s3
                        else Ch a :: pieces s1
                    end
           end
  end.

Fixpoint unpieces (ps : list piece) : string :=
  match ps with
  | [] => ""
  | WS enc :: ps' => enc +:+ unpieces ps'
  | Ch c :: ps' => String c (unpieces ps')
  end.

Fixpoint dropSpaces (ps : list piece) : list piece :=
  match ps with
  | WS _ :: ps' => dropSpaces ps'
  | _ => ps
  end.

(** [strings.TrimSpace] *)
Definition TrimSpace (s : string) : string :=
  unpieces (reverse (dropSpaces (reverse (dropSpaces (pieces s))))).

Definition emit (cur : string) : list string :=
  if decide (cur = "") then [] else [cur].

Fixpoint fieldsOf (ps : list piece) (cur : string) : list string :=
  match ps with
  | [] => emit cur
  | WS _ :: ps' => emit cur ++ fieldsOf ps' ""
  | Ch c :: ps' => fieldsOf ps' (cur +:+ String c "")
  end.

(** [strings.Fields] and [slices.Collect(strings.FieldsSeq(s))] *)
Definition Fields (s : string) : list string := fieldsOf (pieces s) "".

(** [strings.HasPrefix] *)
Fixpoint HasPrefix (s prefix : string) {struct prefix} : bool :=
  match prefix, s with
  | EmptyString, _ => true
  | String _ _, EmptyString => false
  | String a p', String b s' => if decide (a = b) then HasPrefix s' p' else false
  end.

(** [s[n:]] and [s[:n]] *)
Fixpoint dropBytes (n : nat) (s : string) : string :=
  match n, s with
  | S n', String _ s' => dropBytes n' s'
  | _, _ => s
  end.

Fixpoint takeBytes (n : nat) (s : string) : string :=
  match n, s with
  | S n', String a s' => String a (takeBytes n' s')
  | _, _ => ""
  end.

(** [strings.HasSuffix]:
    [len(s) >= len(suffix) && s[len(s)-len(suffix):] == suffix] *)
Definition HasSuffix (s suffix : string) : bool :=
  (String.length suffix <=? String.length s)
  && bool_decide (dropBytes (String.length s - String.length suffix) s = suffix).

(** [strings.CutPrefix] *)
Definition CutPrefix (s prefix : string) : string * bool :=
  if HasPrefix s prefix then (dropBytes (String.length prefix) s, true)
  else (s, false).

(** [strings.TrimSuffix] *)
Definition TrimSuffix (s suffix : string) : string :=
  if HasSuffix s suffix
  then takeBytes (String.length s - String.length suffix) s
  else s.

Fixpoint inCutset (cutset : string) (a : ascii) : bool :=
  match cutset with
  | EmptyString => false
  | String c cutset' => if decide (a = c) then true else inCutset cutset' a
  end.

Fixpoint trimLeft (cutset s : string) : string :=
  match s with
  | EmptyString => ""
  | String a s' => if inCutset cutset a then trimLeft cutset s' else s
  end.

Fixpoint trimRight (cutset s : string) : string :=
  match s with
  | EmptyString => ""
  | String a s' =>
      let r := trimRight cutset s' in
      if decide (r = "") then (if inCutset cutset a then "" else String a "")
      else String a r
  end.

(** [strings.Trim] for a cutset of ASCII characters (Go then trims
    byte by byte, the right end first). *)
Definition Trim (s cutset : string) : string :=
  trimLeft cutset (trimRight cutset s).

(** [strings.Join] *)
Fixpoint Join (elems : list string) (sep : string) : string :=
  match elems with
  | [] => ""
  | [e] => e
  | e :: elems' => e +:+ sep +:+ Join elems' sep
  end.

(** [strings.Contains] *)
Fixpoint Contains (s substr : string) : bool :=
  if HasPrefix s substr then true
  else match s with
       | EmptyString => false
       | String _ s' => Contains s' substr
       end.

(** [strings.Cut]: the text before and after the first [sep]. *)
Fixpoint Cut (s sep : string) : option (string * string) :=
  if HasPrefix s sep then Some ("", dropBytes (String.length sep) s)
  else match s with
       | EmptyString => None
       | String a s' =>
           match Cut s' sep with
           | Some (before, after) => Some (String a before, after)
           | None => None
           end
       end.

(** [strings.SplitN(s, sep, n)] for a non-empty [sep] and [n > 0]. *)
Fixpoint SplitN (s sep : string) (n : nat) : list string :=
  match n with
  | 0 => []
  | 1 => [s]
  | S n' =>
      match Cut s sep with
      | Some (before, after) => before :: SplitN after sep n'
      | None => [s]
      end
  end.

(** [strings.Split] and [strings.SplitSeq] for a non-empty [sep]: there
    are at most [len(s) + 1] parts. *)
Definition Split (s sep : string) : list string :=
  SplitN s sep (S (String.length s)).

(** [strings.LastIndex(s, substr)], [-1] when there is no occurrence. *)
Fixpoint LastIndex (s substr : string) : Z :=
  match s with
  | EmptyString => if HasPrefix s substr then 0 else -1
  | String _ s' =>
      let r := LastIndex s' substr in
      if (0 <=? r)%Z then (r + 1)%Z
      else if HasPrefix s substr then 0%Z else (-1)%Z
  end.

(** The test [s != ""]. *)
Definition nonEmpty (s : string) : bool := bool_decide (s ≠ "").

Definition isUpper (a : ascii) : bool :=
  ((65 <=? byte a) && (byte a <=? 90))%N.

(** [strings.ToLower].  ASCII capitals are lowered; of the other runes
    only U+0130 and U+212A lower to an ASCII letter (i and k).  The
    remaining non-ASCII bytes are kept as they are: Go may rewrite them,
    to non-ASCII bytes again, which a search for an ASCII word cannot
    tell apart. *)
Fixpoint ToLower (s : string) : string :=
  match s with
  | EmptyString => ""
  | String a s1 =>
      if isUpper a then String (ascii_of_N (byte a + 32)) (ToLower s1)
      else match s1 with
           | EmptyString => String a ""
           | String b s2 =>
               if ((byte a =? 0xC4) && (byte b =? 0xB0))%N
               then String "i" (ToLower s2)
               else match s2 with
                    | EmptyString => String a (ToLower s1)
                    | String c s3 =>
                        if ((byte a =? 0xE2) && (byte b =? 0x84) && (byte c =? 0xAA))%N
                        then String "k" (ToLower s3)
                        else String a (ToLower s1)
                    end
           end
  end.

End strings.

Module bufio.

(** [bufio.MaxScanTokenSize] *)
Definition MaxScanTokenSize : N := 65536.

(** The text between line feeds; what follows the last line feed is a
    line only when it is not empty. *)
Fixpoint rawLines (cur s : string) : list string :=
  match s with
  | EmptyString => if decide (cur = "") then [] else [cur]
  | String a s' =>
      if decide (a = "010"%char) then cur :: rawLines "" s'
      else rawLines (cur +:+ String a "") s'
  end.

(** A line fits the scanner's buffer with its line feed. *)
Definition fits (line : string) : bool :=
  (N.of_nat (String.length line) <? MaxScanTokenSize)%N.

Fixpoint whileFits (ls : list string) : list string :=
  match ls with
  | [] => []
  | l :: ls' => if fits l then l :: whileFits ls' else []
  end.

(** [dropCR] of [bufio.ScanLines] *)
Definition dropCR (line : string) : string :=
  if strings.HasSuffix line (String "013"%char "")
  then strings.takeBytes (String.length line - 1) line
  else line.

(** The successive [scanner.Text()] of
    [bufio.NewScanner(strings.NewReader(output))] while [scanner.Scan()]
    is true: the lines without their end-of-line marker, up to the first
    line that is too long for the buffer, where [Scan] gives up. *)
Definition Scan (output : string) : list string :=
  dropCR <$> whileFits (rawLines "" output).

End bufio.

(** ** The reconciler: [CombinePackageData] *)

Module Reconciler.

(** A visiting order of [range m]: every entry once, in any order. *)
Definition range_order {V} (m : gmap string V) (iter : list (string * V)) : Prop :=
  iter ≡ₚ map_to_list m.

(** [upgradableMap[k]] on a [map[string]bool]: absent keys read [false]. *)
Definition covered (upgradableMap : gmap string bool) (k : string) : bool :=
  default false (upgradableMap !! k).

(** Body of the first loop up to the [append]: the description of the
    loop variable is filled from the installed entry of the same name
    when it is empty. *)
Definition enrich (installedPackages : gmap string Package) (pkg : Package) : Package :=
  match installedPackages !! Name pkg with
  | Some installedPkg =>
      if decide (Description pkg = "")
      then mkPackage (Name pkg) (Description installedPkg) (CurrentVersion pkg)
             (AvailableVersion pkg) (NeedsUpdate pkg) (IsSecurityUpdate pkg)
      else pkg
  | None => pkg
  end.

(** One iteration of the first loop on [(packages, upgradableMap)]. *)
Definition upgradable_step (installedPackages : gmap string Package)
    (st : list Package * gmap string bool) (pkg : Package)
    : list Package * gmap string bool :=
  (st.1 ++ [enrich installedPackages pkg], <[Name pkg := true]> st.2).

(** The package literal appended by the second loop. *)
Definition installed_only (pkg : Package) : Package :=
  mkPackage (Name pkg) "" (CurrentVersion pkg) "" false false.

(** One iteration of the second loop. *)
Definition installed_step (upgradableMap : gmap string bool)
    (packages : list Package) (kv : string * Package) : list Package :=
  if covered upgradableMap kv.1 then packages
  else packages ++ [installed_only kv.2].

(** [CombinePackageData], with [iter] the order in which the second
    loop visits [installedPackages]. *)
Definition CombinePackageData (iter : list (string * Package))
    (installedPackages : gmap string Package)
    (upgradablePackages : list Package) : list Package :=
  let st := fold_left (upgradable_step installedPackages) upgradablePackages ([], ∅) in
  fold_left (installed_step st.2) iter st.1.

(** [upgradableMap] as the first loop leaves it: [true] at the names
    of the upgradable entries. *)
Definition name_map (upgradablePackages : list Package) : gmap string bool :=
  foldr (λ p m, <[Name p := true]> m) ∅ (reverse upgradablePackages).

(** Names that are both a key of the installed map and the name of an
    upgradable entry. *)
Definition common_names (installedPackages : gmap string Package)
    (upgradablePackages : list Package) : gset string :=
  dom installedPackages ∩ list_to_set (Name <$> upgradablePackages).

(** The property "an entry has [needsUpdate = true] iff it originated
    from the upgradable sequence": upgradable-derived entries are the
    first [len(upgradablePackages)] positions of the result. *)
Definition needsUpdate_iff_upgradable (iter : list (string * Package))
    (installedPackages : gmap string Package)
    (upgradablePackages : list Package) : Prop :=
  ∀ i p, CombinePackageData iter installedPackages upgradablePackages !! i = Some p →
    (NeedsUpdate p = true ↔ i < length upgradablePackages).

(** Inputs of the kind the tests of [CombinePackageData] use. *)
Definition kb1 : Package := mkPackage "KB5034441" "Security Update" "1.0" "" false false.
Definition kb2 : Package := mkPackage "KB5034442" "Feature Update" "2.0" "" false false.
Definition kb1_up : Package := mkPackage "KB5034441" "" "" "1.1" true false.

(** An upgradable entry that does not carry the flag. *)
Definition unflagged_vim : Package := mkPackage "vim" "" "8.2" "9.1" false false.
Definition installed_kb : gmap string Package :=
  <["KB5034441" := kb1]> (<["KB5034442" := kb2]> ∅).
Definition iter_kb : list (string * Package) :=
  [("KB5034441", kb1); ("KB5034442", kb2)].

(** The installed map is keyed by package name, as a parser builds it. *)
Definition keyed_by_name (installedPackages : gmap string Package) : Prop :=
  ∀ k v, installedPackages !! k = Some v → Name v = k.

End Reconciler.

(** ** The APT manager: parsers of [dpkg-query] and [apt -s upgrade] output *)

Module APT.
Import strings.

(** The inner loop of the multi-word branch: the fields after the
    opening one, up to and including the first that ends in a closing
    bracket (which loses it), or all of them when none does. *)
Fixpoint versionParts (rest : list string) : list string :=
  match rest with
  | [] => []
  | f :: rest' =>
      if HasSuffix f "]" then [TrimSuffix f "]"]
      else f :: versionParts rest'
  end.

(** The loop "Extract current version (in brackets)". *)
Fixpoint currentVersionOf (fields : list string) : string :=
  match fields with
  | [] => ""
  | field :: rest =>
      if HasPrefix field "[" && HasSuffix field "]" then Trim field "[]"
      else
        let '(after, found) := CutPrefix field "[" in
        if found then Join (after :: versionParts rest) " "
        else currentVersionOf rest
  end.

(** The loop "Extract available version (in parentheses)". *)
Fixpoint availableVersionOf (fields : list string) : string :=
  match fields with
  | [] => ""
  | field :: rest =>
      let '(after, found) := CutPrefix field "(" in
      if found then after else availableVersionOf rest
  end.

(** The body of the scanning loop of [parseAPTUpgrade], for one
    [scanner.Text()]. *)
Definition upgradeLine (packages : list Package) (text : string) : list Package :=
  let line := TrimSpace text in
  if negb (HasPrefix line "Inst ") then packages
  else
    let fields := Fields line in
    if length fields <? 4 then packages
    else
      let packageName := default "" (fields !! 1) in
      let currentVersion := currentVersionOf fields in
      let availableVersion := availableVersionOf fields in
      let isSecurityUpdate := Contains (ToLower line) "security" in
      if nonEmpty packageName && nonEmpty currentVersion && nonEmpty availableVersion
      then packages ++ [mkPackage packageName "" currentVersion availableVersion
                          true isSecurityUpdate]
      else packages.

(** [APTManager.parseAPTUpgrade] *)
Definition parseAPTUpgrade (output : string) : list Package :=
  fold_left upgradeLine (bufio.Scan output) [].

(** State of the loop of [parseInstalledPackages]: the map and
    [currentPkg] ([None] for [nil]; the pointer is to the loop's own copy
    of the package, which the map does not share). *)
Definition installedState : Type := gmap string Package * option Package.

(** A line continues a description when it starts with a space and
    there is a current package. *)
Definition continuation (currentPkg : option Package) (line : string) : bool :=
  HasPrefix line " " && bool_decide (is_Some currentPkg).

(** The branch "description continuation": the text is appended to the
    current package after a line feed and the map entry is rewritten. *)
Definition descriptionLine (installedPackages : gmap string Package)
    (currentPkg : Package) (trimmedLine : string) : installedState :=
  let cur := mkPackage (Name currentPkg)
               (Description currentPkg +:+ String "010"%char "" +:+ trimmedLine)
               (CurrentVersion currentPkg) (AvailableVersion currentPkg)
               (NeedsUpdate currentPkg) (IsSecurityUpdate currentPkg) in
  (<[Name cur := cur]> installedPackages, Some cur).

(** The branch "new package line". *)
Definition packageLine (installedPackages : gmap string Package)
    (trimmedLine : string) : installedState :=
  let parts := SplitN trimmedLine " " 3 in
  if length parts <? 2 then (installedPackages, None)
  else
    let packageName := default "" (parts !! 0) in
    let version := default "" (parts !! 1) in
    let description :=
      if length parts =? 3 then default "" (parts !! 2) else "" in
    let pkg := mkPackage packageName description version "" false false in
    (<[packageName := pkg]> installedPackages, Some pkg).

(** The body of the scanning loop of [parseInstalledPackages], for one
    [scanner.Text()]. *)
Definition installedLine (st : installedState) (line : string) : installedState :=
  let trimmedLine := TrimSpace line in
  if decide (trimmedLine = "") then st
  else
    match st.2 with
    | Some currentPkg =>
        if HasPrefix line " " then descriptionLine st.1 currentPkg trimmedLine
        else packageLine st.1 trimmedLine
    | None => packageLine st.1 trimmedLine
    end.

(** [APTManager.parseInstalledPackages] *)
Definition parseInstalledPackages (output : string) : gmap string Package :=
  (fold_left installedLine (bufio.Scan output) (∅, None)).1.

(** [APTManager.GetPackages], given what the two listing commands
    printed ([None]: the command failed) and the order in which the
    reconciler visits the installed map.  The refresh of the package
    indices that comes first does not enter the result. *)
Definition GetPackages (iter : list (string * Package))
    (installedOutput upgradeOutput : option string) : list Package :=
  let installedPackages :=
    match installedOutput with
    | Some out => parseInstalledPackages out
    | None => ∅
    end in
  let upgradablePackages :=
    match upgradeOutput with
    | Some out => parseAPTUpgrade out
    | None => []
    end in
  Reconciler.CombinePackageData iter installedPackages upgradablePackages.

(** "The first bracketed token span" of a field list and its content:
    the first field that opens with a bracket, through the first field
    from there on that closes with one (the same field, or a later
    one); the content is what lies between the two brackets, the fields
    joined by single spaces.  The content may itself begin or end with
    a bracket: the span of the field "[[7]]" has the content "[7]". *)
Inductive BracketSpan : list string → string → Prop :=
  | span_token pre v post :
      Forall (λ f, HasPrefix f "[" = false) pre →
      BracketSpan (pre ++ ("[" +:+ v +:+ "]") :: post) v
  | span_tokens pre v1 mids vn post :
      Forall (λ f, HasPrefix f "[" = false) pre →
      HasSuffix ("[" +:+ v1) "]" = false →
      Forall (λ f, HasSuffix f "]" = false) mids →
      BracketSpan (pre ++ ("[" +:+ v1) :: mids ++ (vn +:+ "]") :: post)
        (Join (v1 :: mids ++ [vn]) " ").


(** A text without a space character. *)
Definition noSpace (s : string) : Prop := Contains s " " = false.

(** The lines of the parser tests. *)
Definition vim_installed_line : string :=
  "vim 2:8.2.3995-1ubuntu2.17 Vi IMproved - enhanced vi editor".
Definition vim_upgrade_line : string :=
  "Inst vim [2:8.2.3995-1ubuntu2.16] (2:8.2.3995-1ubuntu2.17 Ubuntu:22.04/jammy-updates [amd64])".

(** A simulation line for a package that is installed anew: there is no
    current version, and the only bracket is that of the architecture. *)
Definition new_package_line : string :=
  "Inst linux-modules-5.15.0-91-generic (5.15.0-91.101 Ubuntu:22.04/jammy-updates [amd64])".

(** A listing line without a version: two spaces after the name. *)
Definition unversioned_line : string := "vim  Vi IMproved".

Definition vim_package : Package :=
  mkPackage "vim" "Vi IMproved - enhanced vi editor" "2:8.2.3995-1ubuntu2.17" ""
    false false.

(** A listing line with a tab between name and version. *)
Definition tab_line : string := "vim" +:+ String "009"%char "1.0 editor".
Definition tab_package : Package :=
  mkPackage ("vim" +:+ String "009"%char "1.0") "" "editor" "" false false.

(** The two inputs of the reconciler in [GetPackages]: a listing that
    failed counts as empty. *)
Definition installedOf (installedOutput : option string) : gmap string Package :=
  match installedOutput with
  | Some out => parseInstalledPackages out
  | None => ∅
  end.

Definition upgradableOf (upgradeOutput : option string) : list Package :=
  match upgradeOutput with
  | Some out => parseAPTUpgrade out
  | None => []
  end.

(** A scanned line that, trimmed, starts with "Inst ". *)
Definition isInstLine (text : string) : bool := HasPrefix (TrimSpace text) "Inst ".

(** What holds of an upgrade candidate. *)
Definition upgradeCandidate (p : Package) : Prop :=
  NeedsUpdate p = true ∧ Description p = ""
  ∧ Name p ≠ "" ∧ CurrentVersion p ≠ "" ∧ AvailableVersion p ≠ "".

(** What holds of an entry of the installed map: it is keyed by its
    name, name and version have no space, and it is not an update. *)
Definition installedEntry (k : string) (p : Package) : Prop :=
  Name p = k ∧ noSpace k ∧ noSpace (CurrentVersion p)
  ∧ AvailableVersion p = "" ∧ NeedsUpdate p = false ∧ IsSecurityUpdate p = false.

(** What the loop of [parseInstalledPackages] keeps: every entry is as
    above, and the current package is the entry under its name. *)
Definition installedInv (st : installedState) : Prop :=
  (∀ k p, st.1 !! k = Some p → installedEntry k p)
  ∧ (∀ p, st.2 = Some p → st.1 !! Name p = Some p).

(** A package with further text appended to its description, one line
    feed before each piece. *)
Definition withDescription (p : Package) (more : list string) : Package :=
  mkPackage (Name p) (Join (Description p :: more) (String "010"%char ""))
    (CurrentVersion p) (AvailableVersion p) (NeedsUpdate p) (IsSecurityUpdate p).

(** A recorded package and the two lines that continue its description. *)
Definition bash_package : Package :=
  mkPackage "bash" "GNU Bourne Again SHell" "5.1-6" "" false false.
Definition bash_continuations : list string :=
  [" Bash is an sh-compatible shell"; " ."].

End APT.

(** ** The DNF manager: parser of [check-update] output *)

Module DNF.
Import strings.

(** The test on [archSuffix], the same in both places. *)
Definition isArch (archSuffix : string) : bool :=
  bool_decide (archSuffix = "x86_64") || bool_decide (archSuffix = "i686")
  || bool_decide (archSuffix = "i386") || bool_decide (archSuffix = "noarch")
  || bool_decide (archSuffix = "aarch64") || bool_decide (archSuffix = "arm64").

(** [name[:idx]] when [idx := strings.LastIndex(name, "."); idx > 0] and
    [name[idx+1:]] is an architecture; [None] when nothing is
    stripped. *)
Definition stripArch (name : string) : option string :=
  let idx := LastIndex name "." in
  if (0 <? idx)%Z then
    let archSuffix := dropBytes (Z.to_nat (idx + 1)) name in
    if isArch archSuffix then Some (takeBytes (Z.to_nat idx) name) else None
  else None.

(** [baseName] of an installed key. *)
Definition baseNameOf (installedName : string) : string :=
  default installedName (stripArch installedName).

(** [installedPackages[k]] on a [map[string]string]: absent keys read
    as the empty string. *)
Definition versionOf (installedPackages : gmap string string) (k : string) : string :=
  default "" (installedPackages !! k).

(** The loop over the installed map, in visiting order [iter], up to
    its [break]. *)
Fixpoint scanInstalled (iter : list (string * string))
    (basePackageName packageName : string) : string :=
  match iter with
  | [] => ""
  | (installedName, version) :: rest =>
      if bool_decide (baseNameOf installedName = basePackageName)
         || bool_decide (baseNameOf installedName = packageName)
      then version
      else scanInstalled rest basePackageName packageName
  end.

(** The condition on a line of the "list installed <name>" output. *)
Definition listingLine (packageName currentLine : string) : bool :=
  Contains currentLine packageName
  && negb (Contains currentLine "Installed")
  && negb (Contains currentLine "Available").

(** The loop over the lines of that output, up to its [break]. *)
Fixpoint scanListing (lines : list string) (packageName : string) : string :=
  match lines with
  | [] => ""
  | currentLine :: rest =>
      if listingLine packageName currentLine then
        let currentFields := Fields currentLine in
        if 2 <=? length currentFields then default "" (currentFields !! 1)
        else scanListing rest packageName
      else scanListing rest packageName
  end.

(** What the parser meets while it handles one line: the order in
    which [range installedPackages] visits the map, and what
    [exec.Command(packageManager, "list", "installed", name).Output()]
    returns ([None] for an error). *)
Record lineEnv : Type := mkLineEnv {
  rangeOrder : list (string * string);
  listInstalled : string → option string
}.

(** Resolution of the current version from the installed map. *)
Definition resolveInstalled (iter : list (string * string))
    (installedPackages : gmap string string) (packageName : string) : string :=
  let currentVersion := versionOf installedPackages packageName in
  if decide (currentVersion = "") then
    let '(basePackageName, currentVersion) :=
      match stripArch packageName with
      | Some base => (base, versionOf installedPackages base)
      | None => (packageName, currentVersion)
      end in
    if decide (currentVersion = "")
    then scanInstalled iter basePackageName packageName
    else currentVersion
  else currentVersion.

(** Resolution of the current version, with the command as last
    resort. *)
Definition resolveCurrentVersion (e : lineEnv)
    (installedPackages : gmap string string) (packageName : string) : string :=
  let currentVersion := resolveInstalled (rangeOrder e) installedPackages packageName in
  if decide (currentVersion = "") then
    match listInstalled e packageName with
    | Some getCurrentOutput =>
        scanListing (Split getCurrentOutput (String "010"%char "")) packageName
    | None => currentVersion
    end
  else currentVersion.

(** "Skip header lines and empty lines". *)
Definition isHeader (line : string) : bool :=
  bool_decide (line = "") || Contains line "Loaded plugins"
  || Contains line "Last metadata" || HasPrefix line "Loading".

(** The body of the scanning loop of [parseUpgradablePackages], for
    one [scanner.Text()]. *)
Definition upgradableLine (e : lineEnv) (installedPackages : gmap string string)
    (packages : list Package) (text : string) : list Package :=
  let line := TrimSpace text in
  if isHeader line then packages
  else
    let fields := Fields line in
    if length fields <? 3 then packages
    else
      let packageName := default "" (fields !! 0) in
      let availableVersion := default "" (fields !! 1) in
      let repo := default "" (fields !! 2) in
      let currentVersion := resolveCurrentVersion e installedPackages packageName in
      if nonEmpty packageName && nonEmpty currentVersion && nonEmpty availableVersion
      then packages ++ [mkPackage packageName "" currentVersion availableVersion
                          true (Contains (ToLower repo) "security")]
      else packages.

(** [DNFManager.parseUpgradablePackages]; [env i] is what the parser
    meets at the [i]-th scanned line. *)
Definition parseUpgradablePackages (env : nat → lineEnv) (output : string)
    (installedPackages : gmap string string) : list Package :=
  (fold_left (λ st text,
                (upgradableLine (env st.2) installedPackages st.1 text, S st.2))
     (bufio.Scan output) ([], 0)).1.

(** The loop over the installed map as a search: the version of the
    first entry visited whose [baseName] is the [basePackageName] or the
    [packageName] of the candidate. *)
Definition baseNameScan (iter : list (string * string)) (name : string) : string :=
  match list_find (λ kv : string * string,
                     baseNameOf kv.1 = baseNameOf name ∨ baseNameOf kv.1 = name) iter with
  | Some (_, kv) => kv.2
  | None => ""
  end.

(** *** The rule of the specification *)

(** These definitions follow the words of the specification and use
    none of the definitions above; the theorems compare the parser with
    them. *)

(** "Attempted in order until one succeeds": the first attempt that
    gives a non-empty version. *)
Definition firstSuccess (attempts : list string) : string :=
  default "" (head (filter (λ v, v ≠ "") attempts)).

(** The known architecture suffixes. *)
Definition knownArchs : list string :=
  ["x86_64"; "i686"; "i386"; "noarch"; "aarch64"; "arm64"].

(** A name without its architecture suffix: [Some base] when the name
    is [base], a dot and a known architecture, with something before
    the dot; [None] when there is no such suffix to strip. *)
Definition withoutArch (name : string) : option string :=
  match list_find (λ arch, HasSuffix name ("." +:+ arch) = true) knownArchs with
  | Some (_, arch) =>
      let base := TrimSuffix name ("." +:+ arch) in
      if decide (base = "") then None else Some base
  | None => None
  end.

(** The base name: the name without its suffix, or the name itself. *)
Definition bareName (name : string) : string := default name (withoutArch name).

(** (a) exact match against the installed map. *)
Definition byExactName (installedPackages : gmap string string) (name : string) : string :=
  default "" (installedPackages !! name).

(** (b) match after stripping a known architecture suffix from the
    candidate name. *)
Definition byStrippedName (installedPackages : gmap string string) (name : string)
    : string :=
  match withoutArch name with
  | Some base => default "" (installedPackages !! base)
  | None => ""
  end.

(** (c) linear scan of the installed map, in the order [iter] in which
    it is visited: the version of the first key whose base name is the
    candidate name, with or without the candidate's own suffix. *)
Definition byBaseName (iter : list (string * string)) (name : string) : string :=
  match list_find (λ kv : string * string,
                     bareName kv.1 = bareName name ∨ bareName kv.1 = name) iter with
  | Some (_, kv) => kv.2
  | None => ""
  end.

(** A header of the command's listing: a line with "Installed" or
    "Available" in it. *)
Definition listingHeader (line : string) : Prop :=
  Contains line "Installed" = true ∨ Contains line "Available" = true.

#[export] Instance listingHeader_dec line : Decision (listingHeader line).
Proof. unfold listingHeader. apply _. Defined.

(** (d) as the specification words it: the second token of the first
    line of the command's output that contains the name and is not a
    header. *)
Definition byCommandLiteral (listInstalled : string → option string) (name : string)
    : string :=
  match listInstalled name with
  | Some out =>
      match list_find (λ l, Contains l name = true ∧ ¬ listingHeader l)
              (Split out (String "010"%char "")) with
      | Some (_, l) => default "" (Fields l !! 1)
      | None => ""
      end
  | None => ""
  end.

(** (d) amended: the second token of the first line of the command's
    output that contains the name, is not a header and has a second
    token. *)
Definition byCommand (listInstalled : string → option string) (name : string) : string :=
  match listInstalled name with
  | Some out =>
      match list_find (λ l, Contains l name = true ∧ ¬ listingHeader l
                            ∧ 2 ≤ length (Fields l))
              (Split out (String "010"%char "")) with
      | Some (_, l) => default "" (Fields l !! 1)
      | None => ""
      end
  | None => ""
  end.

(** The four strategies in their order. *)
Definition resolved (e : lineEnv) (installedPackages : gmap string string)
    (name : string) : string :=
  firstSuccess [byExactName installedPackages name;
                byStrippedName installedPackages name;
                byBaseName (rangeOrder e) name;
                byCommand (listInstalled e) name].

(** The same with (d) as the specification words it. *)
Definition resolvedLiteral (e : lineEnv) (installedPackages : gmap string string)
    (name : string) : string :=
  firstSuccess [byExactName installedPackages name;
                byStrippedName installedPackages name;
                byBaseName (rangeOrder e) name;
                byCommandLiteral (listInstalled e) name].

(** A banner of the check-update output, or an empty line. *)
Definition banner (line : string) : Prop :=
  line = "" ∨ Contains line "Loaded plugins" = true
  ∨ Contains line "Last metadata" = true ∨ HasPrefix line "Loading" = true.

#[export] Instance banner_dec line : Decision (banner line).
Proof. unfold banner. apply _. Defined.

(** The candidate of a line with the given name, versions and
    repository: emitted exactly when name and versions are not empty. *)
Definition candidate (name currentVersion availableVersion repo : string)
    : list Package :=
  if nonEmpty name && nonEmpty currentVersion && nonEmpty availableVersion
  then [mkPackage name "" currentVersion availableVersion true
          (Contains (ToLower repo) "security")]
  else [].

(** An answer of the command whose first line with the name has no
    second token, as when the listing wraps a long name. *)
Definition zsh_answer : string :=
  "zsh" +:+ String "010"%char "" +:+ "zsh-doc.noarch 5.7 @x".
Definition zsh_env : lineEnv := mkLineEnv [] (λ _, Some zsh_answer).
Definition zsh_update_line : string := "zsh 5.9 baseos".

(** Environments for the four strategies. *)
Definition env_bash : lineEnv := mkLineEnv [("bash", "5.1")] (λ _, None).
Definition env_zsh : lineEnv :=
  mkLineEnv [] (λ _, Some ("Installed Packages" +:+ String "010"%char ""
                           +:+ "zsh.x86_64  5.8-9.el9  @baseos")).

(** Inputs for examples: an installed map with architecture suffixes
    in its keys, and a check-update line. *)
Definition installed_rpm : gmap string string :=
  <["bash.x86_64" := "5.1.8-6.el9"]> (<["vim-minimal.x86_64" := "8.2.2637-20.el9"]> ∅).
Definition iter_rpm : list (string * string) :=
  [("bash.x86_64", "5.1.8-6.el9"); ("vim-minimal.x86_64", "8.2.2637-20.el9")].
Definition env_rpm : lineEnv := mkLineEnv iter_rpm (λ _, None).
Definition bash_update_line : string := "bash.x86_64  5.1.8-9.el9  baseos".

(** *** The installed listing *)

(** "Skip header lines and empty lines" of [parseInstalledPackages]. *)
Definition isInstalledHeader (line : string) : bool :=
  bool_decide (line = "") || Contains line "Loaded plugins"
  || Contains line "Installed Packages".

(** The body of the scanning loop of [parseInstalledPackages], for one
    [scanner.Text()]. *)
Definition installedLine (installedPackages : gmap string string) (text : string)
    : gmap string string :=
  let line := TrimSpace text in
  if isInstalledHeader line then installedPackages
  else
    let fields := Fields line in
    if length fields <? 2 then installedPackages
    else
      let packageName := default "" (fields !! 0) in
      let version := default "" (fields !! 1) in
      <[packageName := version]> installedPackages.

(** [DNFManager.parseInstalledPackages] *)
Definition parseInstalledPackages (output : string) : gmap string string :=
  fold_left installedLine (bufio.Scan output) ∅.

(** The name and version that a line of the listing gives, if any. *)
Definition lineEntry (text : string) : option (string * string) :=
  let line := TrimSpace text in
  if isInstalledHeader line then None
  else match Fields line with
       | name :: version :: _ => Some (name, version)
       | _ => None
       end.

(** The entries of a listing, in the order of its lines. *)
Definition listingEntries (output : string) : list (string * string) :=
  omap lineEntry (bufio.Scan output).

(** An installed key that the scan accepts for a candidate name. *)
Definition sameBase (name installedName : string) : Prop :=
  baseNameOf installedName = baseNameOf name ∨ baseNameOf installedName = name.

(** Two architectures of one package, installed in different versions. *)
Definition installed_multilib : gmap string string :=
  <["glibc.x86_64" := "2.34-60"]> (<["glibc.i686" := "2.34-40"]> ∅).

(** A listing that names bash twice. *)
Definition listing_twice : string :=
  "Installed Packages" +:+ String "010"%char ""
  +:+ "bash.x86_64 5.1.8-6.el9 @baseos" +:+ String "010"%char ""
  +:+ "bash.x86_64 5.1.8-9.el9 @updates".

End DNF.

(** ** The Windows Update manager and the top-level manager *)

Module Windows.
Import strings.

(** What the Windows Update Agent answers.  A property read or a method
    call through COM gives a value or fails ([None]); an object is the
    record of the answers to the reads the agent makes on it.  The
    [Count] of a COM collection is never negative. *)
Record KBArticleCollection : Type := mkKBs {
  kbCount : option N;
  kbItem0 : option string
}.

Record UpdateIdentity : Type := mkIdentity {
  RevisionNumber : option Z;
  UpdateID : option string
}.

Record Category : Type := mkCategory {
  categoryName : option string
}.

Record CategoryCollection : Type := mkCategories {
  categoryCount : option N;
  categoryItem : nat → option Category
}.

Record Update : Type := mkUpdate {
  Title : option string;
  KBArticleIDs : option KBArticleCollection;
  Identity : option UpdateIdentity;
  MsrcSeverity : option string;
  Categories : option CategoryCollection
}.

Record UpdateCollection : Type := mkUpdates {
  Count : option N;
  Item : nat → option Update
}.

Record SearchResult : Type := mkSearchResult {
  Updates : option UpdateCollection
}.

Record UpdateSearcher : Type := mkSearcher {
  Search : string → option SearchResult
}.

Record UpdateSession : Type := mkSession {
  CreateUpdateSearcher : option UpdateSearcher
}.

Record Unknown : Type := mkUnknown {
  QueryInterface : option UpdateSession
}.

(** [ole.CoInitializeEx]: no error, an [*ole.OleError] with its code,
    or another error. *)
Inductive CoInitResult : Type :=
  | CoInitOk
  | CoInitOleError (code : Z)
  | CoInitOtherError.

Record COM : Type := mkCOM {
  CoInitializeEx : CoInitResult;
  CreateObject : option Unknown
}.

(** The errors [searchUpdates] returns, by the call that failed. *)
Inductive error : Type :=
  | ErrComInit
  | ErrCreateSession
  | ErrQueryInterface
  | ErrCreateSearcher
  | ErrSearch (criteria : string)
  | ErrUpdates
  | ErrCount.

(** [getKBArticleID] *)
Definition getKBArticleID (update : Update) : string :=
  match KBArticleIDs update with
  | None => ""
  | Some kbIDs =>
      match kbCount kbIDs with
      | None => ""
      | Some count =>
          if decide (count = 0%N) then ""
          else match kbItem0 kbIDs with
               | None => ""
               | Some item => item
               end
      end
  end.

(** [getUpdateVersion]; [%d] prints the revision in decimal. *)
Definition getUpdateVersion (update : Update) : string :=
  match Identity update with
  | None => ""
  | Some identity =>
      match RevisionNumber identity with
      | None => ""
      | Some rev =>
          match UpdateID identity with
          | None => "rev." +:+ pretty rev
          | Some updateID => updateID +:+ "." +:+ pretty rev
          end
      end
  end.

(** The loop of [isSecurityUpdate] over the categories. *)
Fixpoint securityCategory (item : nat → option Category) (indices : list nat) : bool :=
  match indices with
  | [] => false
  | i :: rest =>
      match item i with
      | None => securityCategory item rest
      | Some cat =>
          match categoryName cat with
          | None => securityCategory item rest
          | Some catName =>
              if bool_decide (catName = "Security Updates")
                 || bool_decide (catName = "Critical Updates")
              then true
              else securityCategory item rest
          end
      end
  end.

(** [isSecurityUpdate] *)
Definition isSecurityUpdate (update : Update) : bool :=
  let hasSeverity :=
    match MsrcSeverity update with
    | Some severity => bool_decide (severity ≠ "")
    | None => false
    end in
  if hasSeverity then true
  else
    match Categories update with
    | None => false
    | Some categories =>
        match categoryCount categories with
        | None => false
        | Some count =>
            securityCategory (categoryItem categories) (seq 0 (N.to_nat count))
        end
    end.

(** [parseUpdate]; [None] is the [nil] it returns when the title cannot
    be read. *)
Definition parseUpdate (update : Update) (criteria : string) : option Package :=
  match Title update with
  | None => None
  | Some title =>
      let kbID := getKBArticleID update in
      let version := getUpdateVersion update in
      let isSecurity := isSecurityUpdate update in
      let name := if decide (kbID ≠ "") then "KB" +:+ kbID else title in
      let isInstalled := Contains criteria "IsInstalled=1" in
      Some (mkPackage name title
              (if isInstalled then version else "")
              (if isInstalled then "" else version)
              (negb isInstalled) isSecurity)
  end.

(** One iteration of the loop over the items of the collection. *)
Definition itemStep (updates : UpdateCollection) (criteria : string)
    (packages : list Package) (i : nat) : list Package :=
  match Item updates i with
  | None => packages
  | Some update =>
      match parseUpdate update criteria with
      | Some pkg => packages ++ [pkg]
      | None => packages
      end
  end.

(** [searchUpdates]: the packages and the error, as Go returns them. *)
Definition searchUpdates (com : COM) (criteria : string)
    : list Package * option error :=
  let initFailed :=
    match CoInitializeEx com with
    | CoInitOk => false
    | CoInitOleError code => bool_decide (code ≠ 1%Z)
    | CoInitOtherError => true
    end in
  if initFailed then ([], Some ErrComInit)
  else
    match CreateObject com with
    | None => ([], Some ErrCreateSession)
    | Some unknown =>
        match QueryInterface unknown with
        | None => ([], Some ErrQueryInterface)
        | Some session =>
            match CreateUpdateSearcher session with
            | None => ([], Some ErrCreateSearcher)
            | Some searcher =>
                match Search searcher criteria with
                | None => ([], Some (ErrSearch criteria))
                | Some result =>
                    match Updates result with
                    | None => ([], Some ErrUpdates)
                    | Some updates =>
                        match Count updates with
                        | None => ([], Some ErrCount)
                        | Some count =>
                            (fold_left (itemStep updates criteria)
                               (seq 0 (N.to_nat count)) [],
                             None)
                        end
                    end
                end
            end
        end
    end.

(** [GetInstalledUpdates] and [GetAvailableUpdates] *)
Definition GetInstalledUpdates (com : COM) : list Package * option error :=
  searchUpdates com "IsInstalled=1".

Definition GetAvailableUpdates (com : COM) : list Package * option error :=
  searchUpdates com "IsInstalled=0 AND IsHidden=0".

(** [Manager.GetPackages]; [com1] and [com2] are what COM answers
    during the first and during the second search. *)
Definition GetPackages (com1 com2 : COM) : list Package * option error :=
  let '(installed, err) := GetInstalledUpdates com1 in
  let installed := if err is Some _ then [] else installed in
  let '(available, err) := GetAvailableUpdates com2 in
  let available := if err is Some _ then [] else available in
  let allPackages := ([] ++ installed) ++ available in
  (allPackages, None).

(** *** Notions of the specification *)

(** The search got as far as the collection and its count: no
    session-, searcher-, search- or collection-level failure. *)
Definition reaches (com : COM) (criteria : string)
    (updates : UpdateCollection) (count : N) : Prop :=
  (CoInitializeEx com = CoInitOk ∨ CoInitializeEx com = CoInitOleError 1%Z)
  ∧ ∃ unknown session searcher result,
      CreateObject com = Some unknown
      ∧ QueryInterface unknown = Some session
      ∧ CreateUpdateSearcher session = Some searcher
      ∧ Search searcher criteria = Some result
      ∧ Updates result = Some updates
      ∧ Count updates = Some count.

(** An item whose own reads succeed: the item access and the title. *)
Definition itemReadable (updates : UpdateCollection) (i : nat) : bool :=
  match Item updates i with
  | None => false
  | Some update => bool_decide (is_Some (Title update))
  end.

(** The package of item [i], if there is one. *)
Definition itemPackage (updates : UpdateCollection) (criteria : string)
    (i : nat) : option Package :=
  Item updates i ≫= λ update, parseUpdate update criteria.

(** A search result with its error replaced by an empty list. *)
Definition orEmpty (r : list Package * option error) : list Package :=
  if r.2 is Some _ then [] else r.1.

(** *** Example answers *)

Definition com_of (items : list Update) : COM :=
  mkCOM CoInitOk
    (Some (mkUnknown (Some (mkSession (Some (mkSearcher (λ _,
       Some (mkSearchResult (Some (mkUpdates (Some (N.of_nat (length items)))
                                      (λ i, items !! i))))))))))).

Definition com_down : COM := mkCOM CoInitOtherError None.

(** The malicious software removal tool: one KB number, a new revision
    every month. *)
Definition msrt (rev : Z) : Update :=
  mkUpdate (Some "Windows Malicious Software Removal Tool x64 (KB890830)")
    (Some (mkKBs (Some 1%N) (Some "890830")))
    (Some (mkIdentity (Some rev) (Some "3d1e2a54")))
    None None.

(** An update whose identity cannot be read. *)
Definition no_identity : Update :=
  mkUpdate (Some "Security Update (KB5034441)")
    (Some (mkKBs (Some 1%N) (Some "5034441"))) None (Some "Important") None.

(** An update whose title cannot be read. *)
Definition no_title : Update :=
  mkUpdate None (Some (mkKBs (Some 1%N) (Some "5034442")))
    (Some (mkIdentity (Some 1%Z) (Some "77aa"))) None None.

End Windows.

(** ** The report command: the step that collects the packages *)

Module commands.
Import Windows.

(** One iteration of the counting loop of [sendReport], on
    [(needsUpdateCount, securityUpdateCount)]. *)
Definition countStep (counts : nat * nat) (pkg : Package) : nat * nat :=
  (if NeedsUpdate pkg then S counts.1 else counts.1,
   if IsSecurityUpdate pkg then S counts.2 else counts.2).

(** The counting loop. *)
Definition countPackages (packageList : list Package) : nat * nat :=
  fold_left countStep packageList (0, 0).

(** The package step of [sendReport]: the list that goes into the
    payload with the two counts, or the error that ends the report
    ("failed to get packages"). *)
Definition reportPackages (com1 com2 : COM) : (list Package * (nat * nat)) + error :=
  let '(packageList, err) := GetPackages com1 com2 in
  match err with
  | Some e => inr e
  | None => inl (packageList, countPackages packageList)
  end.

End commands.

(** ** Facts about the string functions *)

Module stringsFacts.
Import strings.

Lemma nonEmpty_true s : nonEmpty s = true ↔ s ≠ "".
Proof. unfold nonEmpty. by rewrite bool_decide_eq_true. Qed.

Lemma app_String a s t : String a s +:+ t = String a (s +:+ t).
Proof. reflexivity. Qed.

Lemma app_empty_l s : "" +:+ s = s.
Proof. reflexivity. Qed.

Lemma app_empty_r s : s +:+ "" = s.
Proof. induction s as [|a s IH]; [done|]. by rewrite app_String, IH. Qed.

Lemma app_assoc s t u : (s +:+ t) +:+ u = s +:+ t +:+ u.
Proof. induction s as [|a s IH]; [done|]. by rewrite !app_String, IH. Qed.

Lemma length_app s t : String.length (s +:+ t) = String.length s + String.length t.
Proof. induction s as [|a s IH]; [done|]. rewrite app_String. simpl. by rewrite IH. Qed.

Lemma dropBytes_app s t : dropBytes (String.length s) (s +:+ t) = t.
Proof. induction s as [|a s IH]; [by destruct t|]. by rewrite app_String. Qed.

Lemma takeBytes_app s t : takeBytes (String.length s) (s +:+ t) = s.
Proof.
  induction s as [|a s IH]; [by destruct t|].
  rewrite app_String. simpl. by rewrite IH.
Qed.

Lemma HasPrefix_app p s : HasPrefix (p +:+ s) p = true.
Proof.
  induction p as [|a p IH]; [done|].
  rewrite app_String. simpl. by rewrite decide_True.
Qed.

Lemma HasSuffix_app s suffix : HasSuffix (s +:+ suffix) suffix = true.
Proof.
  unfold HasSuffix. rewrite length_app.
  replace (String.length s + String.length suffix - String.length suffix)
    with (String.length s) by lia.
  rewrite dropBytes_app, bool_decide_eq_true_2 by done.
  rewrite andb_true_r. apply Nat.leb_le. lia.
Qed.






Lemma Cut_here sep s : Cut (sep +:+ s) sep = Some ("", s).
Proof.
  destruct sep as [|a sep].
  - rewrite app_empty_l. by destruct s.
  - rewrite app_String. cbn [Cut]. rewrite <- app_String.
    by rewrite HasPrefix_app, dropBytes_app.
Qed.

Lemma Contains_String a s sep :
  Contains (String a s) sep = false →
  HasPrefix (String a s) sep = false ∧ Contains s sep = false.
Proof.
  cbn [Contains]. destruct (HasPrefix (String a s) sep); [done|]. by split.
Qed.

(** Cutting at a one-byte separator: the text before the first
    separator is the longest separator-free prefix. *)
Lemma Cut_byte c name rest :
  Contains name (String c "") = false →
  Cut (name +:+ String c rest) (String c "") = Some (name, rest).
Proof.
  induction name as [|a name IH]; intros Hno.
  - rewrite app_empty_l. cbn. by rewrite decide_True.
  - apply Contains_String in Hno as [Hp Hno].
    rewrite app_String. cbn [Cut].
    cbn in Hp |- *. destruct (decide (c = a)) as [->|Hne]; [done|].
    by rewrite (IH Hno).
Qed.

Lemma Cut_none c s :
  Contains s (String c "") = false → Cut s (String c "") = None.
Proof.
  induction s as [|a s IH]; intros Hno; [done|].
  apply Contains_String in Hno as [Hp Hno].
  cbn [Cut]. rewrite Hp. by rewrite (IH Hno).
Qed.

Lemma Cut_none_inv c s :
  Cut s (String c "") = None → Contains s (String c "") = false.
Proof.
  induction s as [|a s IH]; [done|].
  cbn [Cut Contains]. destruct (HasPrefix (String a s) (String c "")); [done|].
  destruct (Cut s (String c "")) as [[? ?]|]; [done|]. auto.
Qed.

End stringsFacts.

(** ** Properties of the APT parsers *)

Module APTFacts.
Import strings stringsFacts APT.










(** A line adds its candidate, if any, at the end of the list. *)
Lemma upgradeLine_app packages text :
  upgradeLine packages text = packages ++ upgradeLine [] text.
Proof.
  unfold upgradeLine.
  repeat match goal with
         | |- context [if ?b then _ else _] => destruct b
         end; by rewrite ?app_nil_r.
Qed.

Lemma fold_upgradeLine texts packages :
  fold_left upgradeLine texts packages
  = packages ++ concat (upgradeLine [] <$> texts).
Proof.
  revert packages. induction texts as [|t texts IH]; intros packages; simpl.
  - by rewrite app_nil_r.
  - by rewrite IH, (upgradeLine_app packages t), <- (assoc_L app).
Qed.


(** A span whose content has brackets of its own, and a bracket that
    no field closes. *)
Example parseAPTUpgrade_inner_brackets :
  parseAPTUpgrade "Inst p [[7]] (8 r [amd64])" = [mkPackage "p" "" "7" "8" true false]
  ∧ parseAPTUpgrade "Inst p [7 (8 r amd64)" = [mkPackage "p" "" "7 (8 r amd64)" "8" true false].
Proof. by vm_compute. Qed.

Example parseAPTUpgrade_multi_word :
  parseAPTUpgrade "Inst libc6 [2.35 ubuntu3] (2.36 jammy-security [amd64])"
  = [mkPackage "libc6" "" "2.35 ubuntu3" "2.36" true true].
Proof. by vm_compute. Qed.

Example parseAPTUpgrade_other_lines :
  parseAPTUpgrade "Conf vim (2:8.2 Ubuntu [amd64])" = []
  ∧ parseAPTUpgrade "Inst vim (2:8.2)" = [].
Proof. by vm_compute. Qed.


(** A bracketed token span ends in a field that closes with a bracket. *)
Lemma BracketSpan_closed fields v :
  BracketSpan fields v → ∃ f, f ∈ fields ∧ HasSuffix f "]" = true.
Proof.
  destruct 1 as [pre v post _ | pre v1 mids vn post _ _ _].
  - exists ("[" +:+ v +:+ "]"). split; [set_solver|].
    by rewrite <- app_assoc, HasSuffix_app.
  - exists (vn +:+ "]"). split; [set_solver|]. apply HasSuffix_app.
Qed.

(** C6 (not met by the code).  The current version of a candidate should
    be the content of the first bracketed token span of its line.  On
    the line of a package that is installed anew, which has no current
    version and no bracketed token span (its only bracket, that of the
    architecture, is closed inside the last field, before the
    parenthesis), the loop takes the rest of that field, "amd64])", as
    current version, and the candidate is emitted. *)
Theorem parseAPTUpgrade_new_package :
  parseAPTUpgrade new_package_line
  = [mkPackage "linux-modules-5.15.0-91-generic" "" "amd64])" "5.15.0-91.101"
       true false]
  ∧ HasPrefix (TrimSpace new_package_line) "Inst " = true
  ∧ (∀ v, ¬ BracketSpan (Fields (TrimSpace new_package_line)) v).
Proof.
  split; [by vm_compute|]. split; [by vm_compute|].
  intros v (f & Hf & Hclosed)%BracketSpan_closed.
  assert (Hfields : Fields (TrimSpace new_package_line)
                    = ["Inst"; "linux-modules-5.15.0-91-generic"; "(5.15.0-91.101";
                       "Ubuntu:22.04/jammy-updates"; "[amd64])"]) by (by vm_compute).
  rewrite Hfields in Hf.
  repeat (apply elem_of_cons in Hf as [->|Hf]; [by vm_compute in Hclosed|]).
  by apply elem_of_nil in Hf.
Qed.

(** *** The installed listing *)

Lemma SplitN_three name version desc :
  noSpace name → noSpace version →
  SplitN (name +:+ " " +:+ version +:+ " " +:+ desc) " " 3 = [name; version; desc].
Proof.
  intros Hn Hv. cbn [SplitN].
  change (" " +:+ version +:+ " " +:+ desc) with (String " " (version +:+ String " " desc)).
  rewrite (Cut_byte _ _ _ Hn), (Cut_byte _ _ _ Hv). done.
Qed.

Lemma SplitN_two name version :
  noSpace name → noSpace version →
  SplitN (name +:+ " " +:+ version) " " 3 = [name; version].
Proof.
  intros Hn Hv. cbn [SplitN].
  change (" " +:+ version) with (String " " version).
  rewrite (Cut_byte _ _ _ Hn), (Cut_none _ _ Hv). done.
Qed.

Lemma SplitN_one s : noSpace s → SplitN s " " 3 = [s].
Proof. intros Hs. cbn [SplitN]. by rewrite (Cut_none _ _ Hs). Qed.

Lemma installedLine_package m cur line :
  TrimSpace line ≠ "" → continuation cur line = false →
  installedLine (m, cur) line = packageLine m (TrimSpace line).
Proof.
  intros Hne Hc. unfold installedLine, continuation in *.
  rewrite decide_False by done. cbn [fst snd].
  destruct cur as [p|]; [|done].
  destruct (HasPrefix line " "); [|done].
  cbn [andb] in Hc. by rewrite bool_decide_eq_true_2 in Hc.
Qed.

(** C7 (amended).  A line that is blank once trimmed is skipped and
    leaves the current package as it is.  Any other line that is not a
    continuation is trimmed and split at its first two single space
    characters: "name version description" records the package
    [name] with that version and the rest of the line as description,
    "name version" records it with an empty description, and a line
    without a space is skipped and clears the current package.  The
    line of the parser test yields the one package vim. *)
Theorem installedLine_spec :
  (∀ m cur line, TrimSpace line = "" → installedLine (m, cur) line = (m, cur))
  ∧ (∀ m cur line name version desc,
       continuation cur line = false →
       TrimSpace line = name +:+ " " +:+ version +:+ " " +:+ desc →
       noSpace name → noSpace version →
       installedLine (m, cur) line
       = (<[name := mkPackage name desc version "" false false]> m,
          Some (mkPackage name desc version "" false false)))
  ∧ (∀ m cur line name version,
       continuation cur line = false →
       TrimSpace line = name +:+ " " +:+ version →
       noSpace name → noSpace version →
       installedLine (m, cur) line
       = (<[name := mkPackage name "" version "" false false]> m,
          Some (mkPackage name "" version "" false false)))
  ∧ (∀ m cur line,
       continuation cur line = false →
       TrimSpace line ≠ "" → noSpace (TrimSpace line) →
       installedLine (m, cur) line = (m, None))
  ∧ parseInstalledPackages vim_installed_line = {[ "vim" := vim_package ]}.
Proof.
  split; [|split; [|split; [|split]]].
  - intros m cur line Hblank. unfold installedLine. by rewrite decide_True.
  - intros m cur line name version desc Hc Hline Hn Hv.
    rewrite installedLine_package; [|rewrite Hline; by destruct name|done].
    unfold packageLine. by rewrite Hline, (SplitN_three _ _ _ Hn Hv).
  - intros m cur line name version Hc Hline Hn Hv.
    rewrite installedLine_package; [|rewrite Hline; by destruct name|done].
    unfold packageLine. by rewrite Hline, (SplitN_two _ _ Hn Hv).
  - intros m cur line Hc Hne Hs.
    rewrite installedLine_package by done.
    unfold packageLine. by rewrite (SplitN_one _ Hs).
  - by vm_compute.
Qed.

Lemma installedLine_spec_witness :
  installedLine (∅, None) vim_installed_line
  = (<["vim" := vim_package]> ∅, Some vim_package).
Proof.
  apply (proj1 (proj2 installedLine_spec) ∅ None vim_installed_line
           "vim" "2:8.2.3995-1ubuntu2.17" "Vi IMproved - enhanced vi editor");
    by vm_compute.
Defined.

(** C7 as stated fails at two places.  A blank line has fewer than two
    tokens and is not a continuation, yet it leaves the current package
    in place, so that an indented line after it still extends that
    package.  And the tokens are cut at single space characters, not at
    white space: with a tab between name and version, the first two
    white-space-delimited tokens are not the name and version
    recorded. *)
Lemma installedLine_counterexample :
  (continuation (Some vim_package) "" = false
   ∧ length (Fields "") < 2
   ∧ installedLine (∅, Some vim_package) "" = (∅, Some vim_package))
  ∧ (continuation None tab_line = false
     ∧ Fields tab_line = ["vim"; "1.0"; "editor"]
     ∧ installedLine (∅, None) tab_line
       = (<[Name tab_package := tab_package]> ∅, Some tab_package)
     ∧ Name tab_package ≠ "vim").
Proof.
  repeat split; try (vm_compute; reflexivity).
  - vm_compute. lia.
  - vm_compute. discriminate.
Qed.

End APTFacts.

(** ** Properties of the DNF parser *)

Module DNFFacts.
Import strings stringsFacts DNF.

(** *** Stripping an architecture suffix *)

Lemma LastIndex_ge s substr : (-1 ≤ LastIndex s substr)%Z.
Proof.
  induction s as [|a s IH]; cbn [LastIndex].
  - destruct (HasPrefix "" substr); lia.
  - destruct (0 <=? LastIndex s substr)%Z eqn:E;
      [apply Z.leb_le in E; lia|].
    destruct (HasPrefix (String a s) substr); lia.
Qed.

Lemma LastIndex_none t c :
  Contains t (String c "") = false → LastIndex t (String c "") = (-1)%Z.
Proof.
  induction t as [|a t IH]; intros Hno; [done|].
  apply Contains_String in Hno as [Hp Hno].
  cbn [LastIndex]. rewrite (IH Hno), Hp. done.
Qed.

Lemma LastIndex_last s t c :
  Contains t (String c "") = false →
  LastIndex (s +:+ String c t) (String c "") = Z.of_nat (String.length s).
Proof.
  intros Hno. induction s as [|a s IH].
  - rewrite app_empty_l. cbn [LastIndex]. rewrite (LastIndex_none _ _ Hno).
    cbn. by rewrite decide_True.
  - rewrite app_String. cbn [LastIndex]. rewrite IH.
    destruct (0 <=? Z.of_nat (String.length s))%Z eqn:E;
      [|apply Z.leb_gt in E; lia].
    cbn [String.length]. lia.
Qed.

(** The last occurrence splits the text. *)
Lemma LastIndex_split s c i :
  LastIndex s (String c "") = Z.of_nat i →
  s = takeBytes i s +:+ String c (dropBytes (S i) s)
  ∧ Contains (dropBytes (S i) s) (String c "") = false.
Proof.
  revert i. induction s as [|a s IH]; intros i; cbn [LastIndex].
  - cbn. lia.
  - destruct (0 <=? LastIndex s (String c ""))%Z eqn:E.
    + apply Z.leb_le in E. intros Hi.
      destruct i as [|i]; [lia|].
      destruct (IH i) as [Hs Hno]; [lia|].
      split; [|done].
      cbn [takeBytes dropBytes]. rewrite app_String. f_equal. exact Hs.
    + apply Z.leb_gt in E.
      destruct (HasPrefix (String a s) (String c "")) eqn:Hp; [|lia].
      intros Hi. assert (i = 0) as -> by lia.
      cbn in Hp. destruct (decide (c = a)) as [->|]; [|done].
      split; [done|]. cbn [dropBytes].
      pose proof (LastIndex_ge s (String a "")).
      clear -E H. induction s as [|b s IH]; [done|].
      cbn [LastIndex] in E. cbn [Contains].
      destruct (0 <=? LastIndex s (String a ""))%Z eqn:E';
        [apply Z.leb_le in E'; lia|].
      destruct (HasPrefix (String b s) (String a "")); [lia|].
      apply IH; [by apply Z.leb_gt in E'|apply LastIndex_ge].
Qed.

Lemma isArch_no_dot arch : isArch arch = true → Contains arch "." = false.
Proof.
  unfold isArch. rewrite !orb_true_iff, !bool_decide_eq_true.
  intros [[[[[->| ->]| ->]| ->]| ->]| ->]; by vm_compute.
Qed.

Lemma stripArch_inv name base :
  stripArch name = Some base →
  base ≠ "" ∧ ∃ arch, isArch arch = true ∧ name = base +:+ "." +:+ arch.
Proof.
  unfold stripArch.
  destruct (0 <? LastIndex name ".")%Z eqn:E; [|done].
  apply Z.ltb_lt in E.
  destruct (Z_of_nat_complete (LastIndex name ".")) as [i Hi]; [lia|].
  rewrite Hi in E |- *. rewrite Z2Nat.inj_add, !Nat2Z.id by lia.
  replace (i + Z.to_nat 1) with (S i) by lia.
  destruct (isArch (dropBytes (S i) name)) eqn:Ha; [|done].
  intros [= <-]. destruct (LastIndex_split name "." i Hi) as [Hs _].
  split.
  - destruct i; [lia|]. by destruct name.
  - eexists. split; [exact Ha|]. exact Hs.
Qed.

Lemma stripArch_app base arch :
  Contains arch "." = false →
  stripArch (base +:+ "." +:+ arch)
  = if decide (base = "") then None
    else if isArch arch then Some base else None.
Proof.
  intros Hno. unfold stripArch.
  change ("." +:+ arch) with (String "." arch).
  rewrite (LastIndex_last base arch "."%char Hno).
  destruct (decide (base = "")) as [->|Hne]; [done|].
  assert (0 < String.length base) by (destruct base; [done|simpl; lia]).
  destruct (0 <? Z.of_nat (String.length base))%Z eqn:E;
    [|apply Z.ltb_ge in E; lia].
  rewrite Z2Nat.inj_add, !Nat2Z.id by lia.
  replace (String.length base + Z.to_nat 1) with (S (String.length base)) by lia.
  rewrite takeBytes_app.
  assert (Hd : dropBytes (S (String.length base)) (base +:+ String "." arch) = arch).
  { clear. induction base as [|a base IH]; [done|].
    rewrite app_String. exact IH. }
  by rewrite Hd.
Qed.

(** X20.  [stripArch] removes ".arch" for the six known architectures,
    and nothing else; what is left is never empty. *)
Lemma stripArch_Some name base :
  stripArch name = Some base
  ↔ base ≠ "" ∧ ∃ arch, isArch arch = true ∧ name = base +:+ "." +:+ arch.
Proof.
  split; [apply stripArch_inv|].
  intros (Hne & arch & Ha & ->).
  rewrite (stripArch_app base arch (isArch_no_dot _ Ha)).
  by rewrite decide_False, Ha by done.
Qed.

(** *** The parser's tests and the words of the specification *)

Lemma isArch_knownArchs arch : isArch arch = true ↔ arch ∈ knownArchs.
Proof.
  unfold isArch, knownArchs.
  rewrite !orb_true_iff, !bool_decide_eq_true, !elem_of_cons, elem_of_nil. tauto.
Qed.

Lemma takeBytes_dropBytes n s : takeBytes n s +:+ dropBytes n s = s.
Proof.
  revert s. induction n as [|n IH]; intros [|a s]; try done.
  cbn [takeBytes dropBytes]. by rewrite app_String, IH.
Qed.

Lemma HasSuffix_split s suffix :
  HasSuffix s suffix = true → s = TrimSuffix s suffix +:+ suffix.
Proof.
  intros H. unfold TrimSuffix. rewrite H. unfold HasSuffix in H.
  apply andb_true_iff in H as [_ Hd%bool_decide_eq_true].
  transitivity (takeBytes (String.length s - String.length suffix) s
                +:+ dropBytes (String.length s - String.length suffix) s).
  - symmetry. apply takeBytes_dropBytes.
  - by rewrite Hd.
Qed.

(** The index arithmetic of the parser strips exactly what the
    specification calls a known architecture suffix. *)
Lemma stripArch_withoutArch name : stripArch name = withoutArch name.
Proof.
  unfold withoutArch.
  destruct (list_find _ knownArchs) as [[i arch]|] eqn:Hf.
  - apply list_find_Some in Hf as (Hi & Hs & _).
    apply list_elem_of_lookup_2, isArch_knownArchs in Hi.
    pose proof (HasSuffix_split _ _ Hs) as Hn. cbn zeta.
    revert Hn. generalize (TrimSuffix name ("." +:+ arch)). intros base Hn.
    rewrite Hn at 1.
    by rewrite (stripArch_app base arch (isArch_no_dot _ Hi)), Hi.
  - apply list_find_None in Hf.
    destruct (stripArch name) as [base|] eqn:Hs; [|done].
    apply stripArch_inv in Hs as (_ & arch & Ha & ->).
    apply isArch_knownArchs in Ha. rewrite Forall_forall in Hf.
    destruct (Hf arch Ha). apply HasSuffix_app.
Qed.

Lemma baseNameOf_bareName name : baseNameOf name = bareName name.
Proof. unfold baseNameOf, bareName. by rewrite stripArch_withoutArch. Qed.

(** *** The resolution of the current version *)

Lemma scanInstalled_find iter name :
  scanInstalled iter (baseNameOf name) name = baseNameScan iter name.
Proof.
  unfold baseNameScan. induction iter as [|[k v] iter IH]; [done|].
  cbn [scanInstalled list_find]. rewrite IH. cbn [fst].
  destruct (decide (baseNameOf k = baseNameOf name ∨ baseNameOf k = name)) as [H|H].
  - destruct H as [H|H].
    + by rewrite (bool_decide_eq_true_2 _ H).
    + by rewrite (bool_decide_eq_true_2 _ H), orb_true_r.
  - rewrite !bool_decide_eq_false_2 by tauto. cbn [orb].
    by destruct (list_find _ iter) as [[? ?]|].
Qed.

Lemma scanListing_find lines name :
  scanListing lines name
  = match list_find (λ l, listingLine name l = true ∧ 2 ≤ length (Fields l)) lines with
    | Some (_, l) => default "" (Fields l !! 1)
    | None => ""
    end.
Proof.
  induction lines as [|l lines IH]; [done|].
  cbn [scanListing list_find]. rewrite IH.
  destruct (decide (listingLine name l = true ∧ 2 ≤ length (Fields l))) as [[H1 H2]|H].
  - rewrite H1. by apply Nat.leb_le in H2 as ->.
  - destruct (listingLine name l) eqn:H1.
    + destruct (2 <=? length (Fields l)) eqn:H2.
      * apply Nat.leb_le in H2. tauto.
      * by destruct (list_find _ lines) as [[? ?]|].
    + by destruct (list_find _ lines) as [[? ?]|].
Qed.

Lemma firstSuccess_cons v attempts :
  firstSuccess (v :: attempts) = if decide (v = "") then firstSuccess attempts else v.
Proof.
  unfold firstSuccess. rewrite filter_cons.
  destruct (decide (v = "")) as [->|Hne].
  - by rewrite decide_False by auto.
  - by rewrite decide_True by done.
Qed.

Lemma firstSuccess_one v : firstSuccess [v] = v.
Proof.
  rewrite firstSuccess_cons. by destruct (decide (v = "")) as [->|].
Qed.

Lemma baseNameScan_byBaseName iter name : baseNameScan iter name = byBaseName iter name.
Proof.
  unfold baseNameScan, byBaseName.
  rewrite (list_find_ext _
             (λ kv : string * string,
                bareName kv.1 = bareName name ∨ bareName kv.1 = name)); [done|].
  intros kv. by rewrite !baseNameOf_bareName.
Qed.

Lemma listingLine_words name l :
  listingLine name l = true ↔ Contains l name = true ∧ ¬ listingHeader l.
Proof.
  unfold listingLine, listingHeader.
  destruct (Contains l name), (Contains l "Installed"), (Contains l "Available");
    cbn; intuition congruence.
Qed.

Lemma scanListing_byCommand listInstalled name out :
  listInstalled name = Some out →
  scanListing (Split out (String "010"%char "")) name = byCommand listInstalled name.
Proof.
  intros Hout. unfold byCommand. rewrite Hout, scanListing_find.
  rewrite (list_find_ext _
             (λ l, Contains l name = true ∧ ¬ listingHeader l
                   ∧ 2 ≤ length (Fields l))); [done|].
  intros l. rewrite listingLine_words. tauto.
Qed.

(** The nested tests of the parser try the four strategies in order
    and keep the first version that is not empty. *)
Lemma resolveCurrentVersion_resolved e installed name :
  resolveCurrentVersion e installed name = resolved e installed name.
Proof.
  unfold resolved. rewrite 3!firstSuccess_cons, firstSuccess_one.
  unfold resolveCurrentVersion. rewrite <- baseNameScan_byBaseName, <- scanInstalled_find.
  unfold resolveInstalled, byExactName, byStrippedName.
  rewrite <- stripArch_withoutArch. unfold baseNameOf, versionOf.
  assert (Hd : match listInstalled e name with
               | Some getCurrentOutput =>
                   scanListing (Split getCurrentOutput (String "010"%char "")) name
               | None => ""
               end = byCommand (listInstalled e) name).
  { destruct (listInstalled e name) as [out|] eqn:Hout.
    - by rewrite (scanListing_byCommand _ _ _ Hout).
    - unfold byCommand. by rewrite Hout. }
  destruct (decide (default "" (installed !! name) = "")) as [Ha|Ha];
    [rewrite Ha|by rewrite decide_False by done].
  destruct (stripArch name) as [base|]; cbn [default from_option id].
  - destruct (decide (default "" (installed !! base) = "")) as [Hb|Hb];
      [|by rewrite decide_False by done].
    destruct (decide (scanInstalled _ base name = "")) as [->|Hc]; [|done].
    exact Hd.
  - destruct (decide ("" = "")) as [_|?]; [|done].
    destruct (decide (scanInstalled _ name name = "")) as [->|Hc]; [|done].
    exact Hd.
Qed.

(** A version found by the scan is that of an installed package whose
    base name is the candidate's. *)
Lemma baseNameScan_installed iter installed name v :
  Reconciler.range_order installed iter →
  baseNameScan iter name = v → v ≠ "" →
  ∃ key, installed !! key = Some v
         ∧ (baseNameOf key = baseNameOf name ∨ baseNameOf key = name).
Proof.
  unfold baseNameScan, Reconciler.range_order. intros Hperm Hv Hne.
  destruct (list_find _ iter) as [[i [k v']]|] eqn:Hf; [|congruence].
  apply list_find_Some in Hf as (Hi & HP & _). cbn in *. subst v'.
  exists k. split; [|done].
  apply elem_of_map_to_list. rewrite <- Hperm.
  by eapply list_elem_of_lookup_2.
Qed.

Lemma upgradableLine_app e installed packages text :
  upgradableLine e installed packages text
  = packages ++ upgradableLine e installed [] text.
Proof.
  unfold upgradableLine.
  repeat match goal with
         | |- context [if ?b then _ else _] => destruct b
         end; by rewrite ?app_nil_r.
Qed.

Lemma fold_upgradableLine env installed texts packages n :
  (fold_left (λ st text,
                (upgradableLine (env st.2) installed st.1 text, S st.2))
     texts (packages, n)).1
  = packages
    ++ concat (imap (λ i text, upgradableLine (env (n + i)) installed [] text) texts).
Proof.
  revert packages n. induction texts as [|t texts IH]; intros packages n.
  - cbn. by rewrite app_nil_r.
  - cbn [fold_left fst snd imap concat]. rewrite IH, Nat.add_0_r.
    rewrite (upgradableLine_app _ _ packages t), <- (assoc_L app).
    do 3 f_equal. apply imap_ext. intros i x _. cbn. do 2 f_equal. lia.
Qed.

Lemma isHeader_banner line : isHeader line = true ↔ banner line.
Proof.
  unfold isHeader, banner. rewrite !orb_true_iff, bool_decide_eq_true. tauto.
Qed.

(** A line that is no banner and has three fields yields the candidate
    of its fields. *)
Lemma upgradableLine_candidate e installed text name avail repo :
  ¬ banner (TrimSpace text) →
  Fields (TrimSpace text) !! 0 = Some name →
  Fields (TrimSpace text) !! 1 = Some avail →
  Fields (TrimSpace text) !! 2 = Some repo →
  upgradableLine e installed [] text
  = candidate name (resolved e installed name) avail repo.
Proof.
  intros Hb H0 H1 H2. unfold upgradableLine, candidate.
  destruct (isHeader (TrimSpace text)) eqn:Hh; [by apply isHeader_banner in Hh|].
  destruct (Fields (TrimSpace text)) as [|? [|? [|? rest]]]; try done.
  cbn in H0, H1, H2. simplify_eq.
  cbn [length Nat.ltb Nat.leb lookup list_lookup default from_option id].
  by rewrite resolveCurrentVersion_resolved.
Qed.

(** C8 (amended).  [parseUpgradablePackages] handles each scanned line
    on its own, so a line that yields nothing does not affect the
    others.  A banner, an empty line and a line of fewer than three
    tokens yield nothing.  Any other line yields the candidate of its
    first three tokens, name, available version and repository, with
    [needsUpdate = true], exactly when the name, the resolved current
    version and the available version are non-empty, and nothing
    otherwise.  The current version is that of the first strategy that
    gives a non-empty one, in the order (a) exact lookup, (b) lookup
    without a known architecture suffix, (c) scan of the installed map
    by base name, (d) the "list installed" command, of whose output
    the second token of the first line is taken that contains the
    name, is not a header and has a second token. *)
Theorem parseUpgradablePackages_spec :
  (∀ env output installed,
     parseUpgradablePackages env output installed
     = concat (imap (λ i text, upgradableLine (env i) installed [] text)
                 (bufio.Scan output)))
  ∧ (∀ e installed text,
       banner (TrimSpace text) ∨ length (Fields (TrimSpace text)) < 3 →
       upgradableLine e installed [] text = [])
  ∧ (∀ e installed text name avail repo,
       ¬ banner (TrimSpace text) →
       Fields (TrimSpace text) !! 0 = Some name →
       Fields (TrimSpace text) !! 1 = Some avail →
       Fields (TrimSpace text) !! 2 = Some repo →
       upgradableLine e installed [] text
       = candidate name (resolved e installed name) avail repo)
  ∧ (∀ e installed text p, p ∈ upgradableLine e installed [] text →
       upgradableLine e installed [] text = [p]
       ∧ ¬ banner (TrimSpace text)
       ∧ 3 ≤ length (Fields (TrimSpace text))
       ∧ Fields (TrimSpace text) !! 0 = Some (Name p)
       ∧ Fields (TrimSpace text) !! 1 = Some (AvailableVersion p)
       ∧ CurrentVersion p = resolved e installed (Name p)
       ∧ Name p ≠ "" ∧ CurrentVersion p ≠ "" ∧ AvailableVersion p ≠ ""
       ∧ NeedsUpdate p = true).
Proof.
  split; [|split; [|split]]; [| |exact upgradableLine_candidate|].
  - intros env output installed. unfold parseUpgradablePackages.
    by rewrite fold_upgradableLine.
  - intros e installed text [Hb|Hlen]; unfold upgradableLine.
    + apply isHeader_banner in Hb. by rewrite Hb.
    + destruct (isHeader (TrimSpace text)); [done|].
      by apply Nat.ltb_lt in Hlen as ->.
  - intros e installed text p Hp.
    destruct (decide (banner (TrimSpace text))) as [Hb|Hb].
    { apply isHeader_banner in Hb. unfold upgradableLine in Hp.
      rewrite Hb in Hp. by apply elem_of_nil in Hp. }
    destruct (Fields (TrimSpace text)) as [|name [|avail [|repo rest]]] eqn:Hf;
      try (unfold upgradableLine in Hp; rewrite Hf in Hp;
           destruct (isHeader (TrimSpace text)); by apply elem_of_nil in Hp).
    rewrite (upgradableLine_candidate e installed text name avail repo) in Hp |- *
      by (by rewrite ?Hf).
    unfold candidate in *.
    destruct (nonEmpty name) eqn:Hn; [|by apply elem_of_nil in Hp].
    destruct (nonEmpty (resolved e installed name)) eqn:Hc;
      [|by apply elem_of_nil in Hp].
    destruct (nonEmpty avail) eqn:Ha; [|by apply elem_of_nil in Hp].
    cbn [andb] in *. apply list_elem_of_singleton in Hp as ->. cbn.
    apply nonEmpty_true in Hn, Hc, Ha.
    split; [done|]. split; [done|]. split; [lia|]. done.
Qed.

(** The candidate name without its suffix is installed (b); the
    installed key has a suffix the candidate lacks (c); only the command
    knows the package (d); nothing knows it. *)
Example resolve_by_stripping :
  resolveCurrentVersion (mkLineEnv [("bash", "5.1")] (λ _, None))
    {[ "bash" := "5.1" ]} "bash.x86_64" = "5.1".
Proof. by vm_compute. Qed.

Example resolve_by_scan :
  resolveCurrentVersion env_rpm installed_rpm "vim-minimal" = "8.2.2637-20.el9".
Proof. by vm_compute. Qed.

Example resolve_by_command :
  resolveCurrentVersion
    (mkLineEnv [] (λ _, Some ("Installed Packages" +:+ String "010"%char ""
                              +:+ "zsh.x86_64  5.8-9.el9  @baseos")))
    ∅ "zsh.x86_64" = "5.8-9.el9".
Proof. by vm_compute. Qed.

Example unresolved_is_dropped :
  parseUpgradablePackages (λ _, mkLineEnv [] (λ _, None))
    "zsh.x86_64  5.9  baseos" ∅ = [].
Proof. by vm_compute. Qed.

(** One line for each strategy. *)
Lemma parseUpgradablePackages_spec_witness :
  upgradableLine env_rpm installed_rpm [] bash_update_line
  = [mkPackage "bash.x86_64" "" "5.1.8-6.el9" "5.1.8-9.el9" true false]
  ∧ upgradableLine env_bash {[ "bash" := "5.1" ]} [] "bash.x86_64 5.2 baseos"
    = [mkPackage "bash.x86_64" "" "5.1" "5.2" true false]
  ∧ upgradableLine env_rpm installed_rpm [] "vim-minimal 8.2.2637-21.el9 security"
    = [mkPackage "vim-minimal" "" "8.2.2637-20.el9" "8.2.2637-21.el9" true true]
  ∧ upgradableLine env_zsh ∅ [] "zsh.x86_64 5.9 baseos"
    = [mkPackage "zsh.x86_64" "" "5.8-9.el9" "5.9" true false].
Proof.
  pose proof (proj1 (proj2 (proj2 parseUpgradablePackages_spec))) as H.
  assert (Hno : ∀ line, bool_decide (banner line) = false → ¬ banner line)
    by (intros line Hd; by apply bool_decide_eq_false in Hd).
  split; [|split; [|split]].
  - rewrite (H env_rpm installed_rpm bash_update_line
               "bash.x86_64" "5.1.8-9.el9" "baseos");
      [by vm_compute|apply Hno; by vm_compute|done..].
  - rewrite (H env_bash {[ "bash" := "5.1" ]} "bash.x86_64 5.2 baseos"
               "bash.x86_64" "5.2" "baseos");
      [by vm_compute|apply Hno; by vm_compute|done..].
  - rewrite (H env_rpm installed_rpm "vim-minimal 8.2.2637-21.el9 security"
               "vim-minimal" "8.2.2637-21.el9" "security");
      [by vm_compute|apply Hno; by vm_compute|done..].
  - rewrite (H env_zsh ∅ "zsh.x86_64 5.9 baseos" "zsh.x86_64" "5.9" "baseos");
      [by vm_compute|apply Hno; by vm_compute|done..].
Defined.

(** C8 as stated fails at strategy (d): when the first line of the
    command's output that contains the name has no second token, the
    parser goes on to the next such line.  Here no strategy of the
    specification gives a version, so the candidate should be dropped;
    the parser emits it with the version of another package. *)
Lemma parseUpgradablePackages_spec_counterexample :
  upgradableLine zsh_env ∅ [] zsh_update_line
  = [mkPackage "zsh" "" "5.7" "5.9" true false]
  ∧ byCommandLiteral (listInstalled zsh_env) "zsh" = ""
  ∧ resolvedLiteral zsh_env ∅ "zsh" = ""
  ∧ candidate "zsh" (resolvedLiteral zsh_env ∅ "zsh") "5.9" "baseos" = [].
Proof. by vm_compute. Qed.

End DNFFacts.

(** ** Properties of the Windows Update search and of the top-level manager *)

Module WindowsFacts.
Import strings Windows.

Lemma itemStep_eq updates criteria packages i :
  itemStep updates criteria packages i
  = packages ++ option_list (itemPackage updates criteria i).
Proof.
  unfold itemStep, itemPackage.
  destruct (Item updates i) as [u|]; cbn; [|by rewrite app_nil_r].
  destruct (parseUpdate u criteria); cbn; [done|by rewrite app_nil_r].
Qed.

Lemma omap_cons {A B} (f : A → option B) x l :
  omap f (x :: l) = option_list (f x) ++ omap f l.
Proof. cbn. by destruct (f x). Qed.

Lemma fold_itemStep updates criteria indices packages :
  fold_left (itemStep updates criteria) indices packages
  = packages ++ omap (itemPackage updates criteria) indices.
Proof.
  revert packages. induction indices as [|i indices IH]; intros packages.
  - cbn. by rewrite app_nil_r.
  - cbn [fold_left]. by rewrite IH, itemStep_eq, omap_cons, <- (assoc_L app).
Qed.

(** An item yields a package exactly when its own reads succeed. *)
Lemma itemPackage_readable updates criteria i :
  is_Some (itemPackage updates criteria i) ↔ itemReadable updates i = true.
Proof.
  unfold itemPackage, itemReadable, parseUpdate.
  destruct (Item updates i) as [u|]; cbn [mbind option_bind].
  - rewrite bool_decide_eq_true. destruct (Title u); cbn.
    + split; eauto.
    + split; intros [? ?]; done.
  - split; [intros [? ?]|]; done.
Qed.

Lemma omap_readable updates criteria indices :
  omap (itemPackage updates criteria) indices
  = omap (itemPackage updates criteria)
      (filter (λ i, itemReadable updates i = true) indices)
  ∧ length (omap (itemPackage updates criteria) indices)
    = length (filter (λ i, itemReadable updates i = true) indices).
Proof.
  induction indices as [|i indices [IH1 IH2]]; [done|].
  rewrite filter_cons, omap_cons.
  pose proof (itemPackage_readable updates criteria i) as Hr.
  destruct (itemReadable updates i).
  - rewrite decide_True by done. rewrite omap_cons.
    destruct (itemPackage updates criteria i) as [p|].
    + simpl. split; [by rewrite <- IH1 | by rewrite IH2].
    + destruct Hr as [_ Hr]. by destruct (Hr eq_refl).
  - rewrite decide_False by done.
    destruct (itemPackage updates criteria i) as [p|]; [|done].
    destruct Hr as [Hr _]. by specialize (Hr (mk_is_Some _ _ eq_refl)).
Qed.

(** When the search fails it is at one of the calls before the loop
    over the items. *)
Lemma searchUpdates_error com criteria :
  (searchUpdates com criteria).2 = None
  ↔ ∃ updates count, reaches com criteria updates count.
Proof.
  unfold searchUpdates, reaches. split.
  - destruct (CoInitializeEx com) as [|code|] eqn:Hinit; cbn; [| |done].
    + destruct (CreateObject com) as [unknown|]; [|done].
      destruct (QueryInterface unknown) as [session|] eqn:?; [|done].
      destruct (CreateUpdateSearcher session) as [searcher|] eqn:?; [|done].
      destruct (Search searcher criteria) as [result|] eqn:?; [|done].
      destruct (Updates result) as [updates|] eqn:?; [|done].
      destruct (Count updates) as [count|] eqn:?; [|done].
      intros _. exists updates, count. split; [by left|].
      by exists unknown, session, searcher, result.
    + destruct (bool_decide (code ≠ 1%Z)) eqn:Hcode; [done|].
      apply bool_decide_eq_false in Hcode. apply dec_stable in Hcode. subst code.
      destruct (CreateObject com) as [unknown|]; [|done].
      destruct (QueryInterface unknown) as [session|] eqn:?; [|done].
      destruct (CreateUpdateSearcher session) as [searcher|] eqn:?; [|done].
      destruct (Search searcher criteria) as [result|] eqn:?; [|done].
      destruct (Updates result) as [updates|] eqn:?; [|done].
      destruct (Count updates) as [count|] eqn:?; [|done].
      intros _. exists updates, count. split; [by right|].
      by exists unknown, session, searcher, result.
  - intros (updates & count & Hinit & unknown & session & searcher & result
            & -> & -> & -> & -> & -> & ->).
    by destruct Hinit as [-> | ->].
Qed.

(** C9.  When the search reaches the collection of updates, it
    returns no error whatever happens at the items: the result is the
    list of the packages of the items, in order, where the items whose
    access or whose title read fails are left out and every other
    item contributes its package.  An error is returned only when a
    call before the loop over the items fails. *)
Theorem searchUpdates_skips_failing_items com criteria updates count :
  reaches com criteria updates count →
  searchUpdates com criteria
  = (omap (itemPackage updates criteria)
       (filter (λ i, itemReadable updates i = true) (seq 0 (N.to_nat count))),
     None)
  ∧ length (searchUpdates com criteria).1
    = length (filter (λ i, itemReadable updates i = true) (seq 0 (N.to_nat count)))
  ∧ (∀ i, itemReadable updates i = false ↔ itemPackage updates criteria i = None)
  ∧ (∀ com' criteria',
       (searchUpdates com' criteria').2 ≠ None
       ↔ ¬ ∃ updates' count', reaches com' criteria' updates' count').
Proof.
  intros Hreach.
  assert (Heq : searchUpdates com criteria
                = (omap (itemPackage updates criteria) (seq 0 (N.to_nat count)), None)).
  { destruct Hreach as (Hinit & unknown & session & searcher & result
                        & H1 & H2 & H3 & H4 & H5 & H6).
    unfold searchUpdates. rewrite H1, H2, H3, H4, H5, H6, fold_itemStep.
    by destruct Hinit as [-> | ->]. }
  destruct (omap_readable updates criteria (seq 0 (N.to_nat count))) as [Ho Hl].
  split; [by rewrite Heq, <- Ho|].
  split; [by rewrite Heq|].
  split.
  - intros i. pose proof (itemPackage_readable updates criteria i) as Hr.
    rewrite <- not_true_iff_false, <- Hr, <- eq_None_not_Some. done.
  - intros com' criteria'. by rewrite <- searchUpdates_error.
Qed.

Lemma reaches_com_of items criteria :
  reaches (com_of items) criteria
    (mkUpdates (Some (N.of_nat (length items))) (λ i, items !! i))
    (N.of_nat (length items)).
Proof. split; [by left|]. by repeat eexists. Qed.

Lemma searchUpdates_skips_failing_items_witness :
  searchUpdates (com_of [msrt 200; no_title; no_identity]) "IsInstalled=1"
  = ([mkPackage "KB890830" "Windows Malicious Software Removal Tool x64 (KB890830)"
        "3d1e2a54.200" "" false false;
      mkPackage "KB5034441" "Security Update (KB5034441)" "" "" false true],
     None).
Proof.
  exact (proj1 (searchUpdates_skips_failing_items _ "IsInstalled=1" _ _
                  (reaches_com_of [msrt 200; no_title; no_identity] "IsInstalled=1"))).
Defined.

(** [Manager.GetPackages] in one equation. *)
Lemma GetPackages_eq com1 com2 :
  GetPackages com1 com2
  = (orEmpty (GetInstalledUpdates com1) ++ orEmpty (GetAvailableUpdates com2), None).
Proof.
  unfold GetPackages, orEmpty.
  by destruct (GetInstalledUpdates com1) as [installed [e1|]],
              (GetAvailableUpdates com2) as [available [e2|]].
Qed.

(** C10.  [Manager.GetPackages] returns no error, whatever the two
    searches answer: its list is the result of the first search
    followed by the result of the second, with an empty list in place
    of a search that failed. *)
Theorem GetPackages_no_error com1 com2 :
  (GetPackages com1 com2).2 = None
  ∧ (GetPackages com1 com2).1
    = orEmpty (GetInstalledUpdates com1) ++ orEmpty (GetAvailableUpdates com2)
  ∧ ((GetInstalledUpdates com1).2 ≠ None → (GetAvailableUpdates com2).2 ≠ None →
     GetPackages com1 com2 = ([], None)).
Proof.
  rewrite GetPackages_eq. split; [done|]. split; [done|].
  unfold orEmpty. intros H1 H2.
  destruct (GetInstalledUpdates com1) as [installed [e1|]],
           (GetAvailableUpdates com2) as [available [e2|]]; done.
Qed.

Example GetPackages_both_searches_fail :
  GetPackages com_down com_down = ([], None).
Proof. reflexivity. Qed.

Example GetPackages_first_search_fails :
  GetPackages com_down (com_of [msrt 201])
  = ([mkPackage "KB890830" "Windows Malicious Software Removal Tool x64 (KB890830)"
        "" "3d1e2a54.201" true false], None).
Proof. by vm_compute. Qed.



End WindowsFacts.

(** ** Properties of the reconciler *)

Module ReconcilerFacts.
Import Reconciler.

Section loops.
Context (installed : gmap string Package).

Lemma first_loop upgradable acc um :
  fold_left (upgradable_step installed) upgradable (acc, um)
  = (acc ++ (enrich installed <$> upgradable),
     foldr (λ p m, <[Name p := true]> m) um (reverse upgradable)).
Proof.
  revert acc um. induction upgradable as [|p l IH]; intros acc um; simpl.
  - by rewrite app_nil_r.
  - unfold upgradable_step at 2. simpl. rewrite IH.
    rewrite reverse_cons, foldr_app. simpl.
    by rewrite <- app_assoc.
Qed.

Lemma covered_foldr (l : list Package) k :
  covered (foldr (λ p m, <[Name p := true]> m) ∅ l) k = true ↔ k ∈ Name <$> l.
Proof.
  unfold covered. induction l as [|p l IH]; simpl.
  - rewrite lookup_empty. simpl. split; [done | by intros ?%elem_of_nil].
  - rewrite elem_of_cons. destruct (decide (Name p = k)) as [->|Hne].
    + rewrite lookup_insert_eq. simpl. split; auto.
    + rewrite lookup_insert_ne by done. rewrite IH.
      split; [auto | by intros [?|?]].
Qed.

Lemma second_loop um iter acc :
  fold_left (installed_step um) iter acc
  = acc ++ (installed_only ∘ snd <$> filter (λ kv, covered um kv.1 = false) iter).
Proof.
  revert acc. induction iter as [|kv l IH]; intros acc; simpl.
  - by rewrite app_nil_r.
  - rewrite IH, filter_cons. unfold installed_step.
    destruct (covered um kv.1) eqn:E.
    + by rewrite decide_False by done.
    + rewrite decide_True by done. simpl. by rewrite <- app_assoc.
Qed.
End loops.

Lemma covered_name_map upgradable k :
  covered (name_map upgradable) k = true ↔ k ∈ Name <$> upgradable.
Proof.
  unfold name_map. rewrite covered_foldr, !list_elem_of_fmap.
  by setoid_rewrite elem_of_reverse.
Qed.

Lemma CombinePackageData_eq iter installed upgradable :
  CombinePackageData iter installed upgradable
  = (enrich installed <$> upgradable)
    ++ (installed_only ∘ snd <$>
          filter (λ kv, covered (name_map upgradable) kv.1 = false) iter).
Proof.
  unfold CombinePackageData. rewrite first_loop. simpl. by rewrite second_loop.
Qed.

Lemma filter_split_length {A} (P : A → bool) (l : list A) :
  length (filter (λ x, P x = true) l) + length (filter (λ x, P x = false) l)
  = length l.
Proof.
  induction l as [|x l IH]; [done|].
  rewrite !filter_cons. destruct (P x) eqn:E.
  - rewrite decide_True, decide_False by congruence. simpl. lia.
  - rewrite decide_False, decide_True by congruence. simpl. lia.
Qed.

(** The covered entries of a visiting order are, up to order, the
    common names. *)
Lemma covered_entries_size iter installed upgradable :
  range_order installed iter →
  length (filter (λ kv : string * Package,
                    covered (name_map upgradable) kv.1 = true) iter)
  = size (common_names installed upgradable).
Proof.
  intros Hperm.
  set (P := λ kv : string * Package, covered (name_map upgradable) kv.1 = true).
  assert (Hnd : NoDup (filter P iter).*1).
  { apply (NoDup_fmap_fst _).
    - intros k v1 v2 H1%list_elem_of_filter H2%list_elem_of_filter.
      destruct H1 as [_ H1], H2 as [_ H2].
      rewrite Hperm in H1, H2.
      apply elem_of_map_to_list in H1, H2. congruence.
    - apply NoDup_filter. rewrite Hperm. apply NoDup_map_to_list. }
  rewrite <- (length_fmap fst), <- (size_list_to_set (C := gset string)) by done.
  f_equal. apply set_eq. intros k. unfold common_names.
  rewrite elem_of_list_to_set, elem_of_intersection, elem_of_list_to_set,
    elem_of_dom, list_elem_of_fmap.
  split.
  - intros [[k' v] [-> [Hc Hin]%list_elem_of_filter]]. simpl in *.
    rewrite Hperm in Hin. apply elem_of_map_to_list in Hin.
    split; [by eexists|]. by apply covered_name_map.
  - intros [[v Hv] Hin]. exists (k, v). split; [done|].
    apply list_elem_of_filter. split.
    + by apply covered_name_map.
    + rewrite Hperm. by apply elem_of_map_to_list.
Qed.

(** C2.  The combined list has [|installed| + |upgradable|] entries
    less one for every distinct name that is both a key of the
    installed map and the name of an upgradable entry; in particular it
    has at most [|installed| + |upgradable|] entries. *)
Theorem CombinePackageData_length iter installed upgradable :
  range_order installed iter →
  length (CombinePackageData iter installed upgradable)
    ≤ size installed + length upgradable
  ∧ length (CombinePackageData iter installed upgradable)
    = size installed + length upgradable
      - size (common_names installed upgradable)
  ∧ length (CombinePackageData iter installed upgradable)
      + size (common_names installed upgradable)
    = size installed + length upgradable.
Proof.
  intros Hperm.
  pose proof (covered_entries_size iter installed upgradable Hperm) as Hcov.
  pose proof (filter_split_length
                (λ kv : string * Package, covered (name_map upgradable) kv.1) iter)
    as Hsplit.
  assert (Hlen : length iter = size installed).
  { rewrite Hperm. apply length_map_to_list. }
  rewrite CombinePackageData_eq, length_app, !length_fmap.
  simpl in *. lia.
Qed.

Lemma range_order_kb : range_order installed_kb iter_kb.
Proof.
  unfold range_order, installed_kb, iter_kb.
  rewrite map_to_list_insert by done.
  by rewrite insert_empty, map_to_list_singleton.
Qed.

(** The cases of [TestCombinePackageData]: counts of packages and of
    packages that need an update. *)
Example test_empty_inputs : CombinePackageData [] ∅ [] = [].
Proof. reflexivity. Qed.

Example test_only_installed :
  length (CombinePackageData iter_kb installed_kb []) = 2
  ∧ length (filter (λ p, NeedsUpdate p = true)
              (CombinePackageData iter_kb installed_kb [])) = 0.
Proof. by vm_compute. Qed.

Example test_mixed_with_overlap :
  CombinePackageData iter_kb installed_kb [kb1_up]
  = [mkPackage "KB5034441" "Security Update" "" "1.1" true false;
     mkPackage "KB5034442" "" "2.0" "" false false].
Proof. by vm_compute. Qed.

Lemma CombinePackageData_length_witness :
  range_order installed_kb iter_kb
  ∧ length (CombinePackageData iter_kb installed_kb [kb1_up])
      + size (common_names installed_kb [kb1_up])
    = size installed_kb + length [kb1_up].
Proof.
  split; [exact range_order_kb|].
  apply (CombinePackageData_length iter_kb installed_kb [kb1_up]).
  exact range_order_kb.
Defined.

Lemma lookup_combined iter installed upgradable i p :
  CombinePackageData iter installed upgradable !! i = Some p →
  (∃ u, upgradable !! i = Some u ∧ p = enrich installed u)
  ∨ (length upgradable ≤ i ∧ ∃ kv, kv ∈ iter ∧ p = installed_only kv.2).
Proof.
  rewrite CombinePackageData_eq. intros H.
  apply lookup_app_Some in H as [H|[Hle H]].
  - left. apply list_lookup_fmap_Some in H as (u & -> & Hu). eauto.
  - right. rewrite length_fmap in Hle. split; [done|].
    apply list_lookup_fmap_Some in H as (kv & -> & Hkv).
    exists kv. split; [|done].
    apply list_elem_of_lookup_2 in Hkv.
    by apply list_elem_of_filter in Hkv as [_ ?].
Qed.

Lemma NeedsUpdate_enrich installed u :
  NeedsUpdate (enrich installed u) = NeedsUpdate u.
Proof.
  unfold enrich. destruct (installed !! Name u); [|done]. by case_decide.
Qed.

(** C3 (amended).  An entry of the combined list that comes from the
    upgradable sequence keeps the [needsUpdate] flag of its input
    entry, and an entry synthesized from an installed-only name has
    [needsUpdate = false]; so when every upgradable entry has
    [needsUpdate = true], an entry of the result has
    [needsUpdate = true] iff it originated from the upgradable
    sequence. *)
Theorem CombinePackageData_needsUpdate iter installed upgradable :
  (∀ i p, CombinePackageData iter installed upgradable !! i = Some p →
     (∀ u, upgradable !! i = Some u → NeedsUpdate p = NeedsUpdate u)
     ∧ (length upgradable ≤ i → NeedsUpdate p = false))
  ∧ (Forall (λ u, NeedsUpdate u = true) upgradable →
     needsUpdate_iff_upgradable iter installed upgradable).
Proof.
  assert (Hgen : ∀ i p,
    CombinePackageData iter installed upgradable !! i = Some p →
    (∀ u, upgradable !! i = Some u → NeedsUpdate p = NeedsUpdate u)
    ∧ (length upgradable ≤ i → NeedsUpdate p = false)).
  { intros i p [(u & Hu & ->)|(Hle & kv & _ & ->)]%lookup_combined.
    - split.
      + intros u' Hu'. rewrite NeedsUpdate_enrich. congruence.
      + intros Hle. apply lookup_lt_Some in Hu. lia.
    - split; [|done].
      intros u Hu. apply lookup_lt_Some in Hu. lia. }
  split; [exact Hgen|].
  intros Hall i p Hp. destruct (Hgen i p Hp) as [Hup Hinst].
  destruct (upgradable !! i) as [u|] eqn:Hu.
  - rewrite (Hup u eq_refl).
    rewrite Forall_forall in Hall.
    pose proof (Hall u (list_elem_of_lookup_2 _ _ _ Hu)).
    apply lookup_lt_Some in Hu. done.
  - apply lookup_ge_None in Hu. rewrite (Hinst Hu). split; [done|lia].
Qed.

Lemma CombinePackageData_needsUpdate_witness :
  Forall (λ u, NeedsUpdate u = true) [kb1_up]
  ∧ needsUpdate_iff_upgradable iter_kb installed_kb [kb1_up].
Proof.
  assert (H : Forall (λ u, NeedsUpdate u = true) [kb1_up]).
  { repeat constructor. }
  split; [exact H|].
  exact (proj2 (CombinePackageData_needsUpdate iter_kb installed_kb [kb1_up]) H).
Defined.

(** C3 as stated fails: an upgradable entry whose own flag is [false]
    is emitted as it is, with [needsUpdate = false], at a position that
    comes from the upgradable sequence. *)
Lemma CombinePackageData_needsUpdate_counterexample :
  CombinePackageData [] ∅ [unflagged_vim] !! 0 = Some unflagged_vim
  ∧ 0 < length [unflagged_vim]
  ∧ NeedsUpdate unflagged_vim = false
  ∧ (needsUpdate_iff_upgradable [] ∅ [unflagged_vim] → False).
Proof.
  split; [reflexivity|]. split; [simpl; lia|]. split; [reflexivity|].
  intros H. specialize (H 0 _ eq_refl). simpl in H.
  destruct H as [_ H]. discriminate H. lia.
Qed.

(** C4.  Entry [i] of the combined list, for [i < len(upgradable)], is
    [upgradable[i]] in every field but the description; the description
    is the installed entry's when [upgradable[i]] has an empty one and
    the installed map has the name, and is that of [upgradable[i]]
    otherwise (so a non-empty description is never overwritten). *)
Theorem CombinePackageData_upgradable_entry iter installed upgradable i u :
  upgradable !! i = Some u →
  ∃ p, CombinePackageData iter installed upgradable !! i = Some p
    ∧ Name p = Name u
    ∧ CurrentVersion p = CurrentVersion u
    ∧ AvailableVersion p = AvailableVersion u
    ∧ NeedsUpdate p = NeedsUpdate u
    ∧ IsSecurityUpdate p = IsSecurityUpdate u
    ∧ (∀ ip, Description u = "" → installed !! Name u = Some ip →
         Description p = Description ip)
    ∧ (Description u ≠ "" ∨ installed !! Name u = None →
         Description p = Description u).
Proof.
  intros Hu. exists (enrich installed u). split.
  { rewrite CombinePackageData_eq. apply lookup_app_l_Some.
    by rewrite list_lookup_fmap, Hu. }
  unfold enrich.
  destruct (installed !! Name u) as [ip|] eqn:Hip;
    [destruct (decide (Description u = "")) as [He|Hne]|]; simpl;
    repeat split; try done.
  all: try (intros ip' ? [= <-]; done).
  all: intros [?|?]; done.
Qed.

Lemma CombinePackageData_upgradable_entry_witness :
  ∃ p, CombinePackageData iter_kb installed_kb [kb1_up] !! 0 = Some p
    ∧ Name p = "KB5034441" ∧ Description p = "Security Update".
Proof.
  destruct (CombinePackageData_upgradable_entry iter_kb installed_kb [kb1_up] 0 kb1_up
              eq_refl) as (p & Hp & Hn & _ & _ & _ & _ & Hd & _).
  exists p. split; [exact Hp|]. split; [exact Hn|].
  exact (Hd kb1 eq_refl eq_refl).
Defined.

End ReconcilerFacts.

(** ** The version invariant of the final list *)

Module InvariantFacts.
Import strings stringsFacts Reconciler ReconcilerFacts Windows.

Lemma app_nonempty_r s t : t ≠ "" → s +:+ t ≠ "".
Proof. destruct s; [done|]. by rewrite app_String. Qed.

(** A version read from a readable identity is never empty. *)
Lemma getUpdateVersion_nonempty update identity rev :
  Identity update = Some identity → RevisionNumber identity = Some rev →
  getUpdateVersion update ≠ "".
Proof.
  unfold getUpdateVersion. intros -> ->.
  destruct (UpdateID identity) as [updateID|].
  - apply app_nonempty_r. by rewrite app_String.
  - by rewrite app_String.
Qed.

(** X25.  The package of an update with a readable identity satisfies
    the invariant on versions, for either search. *)
Lemma parseUpdate_versionInvariant update criteria identity rev p :
  Identity update = Some identity → RevisionNumber identity = Some rev →
  parseUpdate update criteria = Some p → versionInvariant p.
Proof.
  intros Hid Hrev. unfold parseUpdate.
  destruct (Title update); [|done]. intros [= <-].
  pose proof (getUpdateVersion_nonempty _ _ _ Hid Hrev).
  unfold versionInvariant. destruct (Contains criteria "IsInstalled=1"); cbn; auto.
Qed.

(** X26.  The reconciler keeps the invariant on versions when its
    inputs have versions: installed entries a current one, upgradable
    entries an available one and [needsUpdate = true]. *)
Lemma CombinePackageData_versionInvariant iter installed upgradable :
  range_order installed iter →
  (∀ k v, installed !! k = Some v → CurrentVersion v ≠ "") →
  Forall (λ u, NeedsUpdate u = true ∧ AvailableVersion u ≠ "") upgradable →
  Forall versionInvariant (CombinePackageData iter installed upgradable).
Proof.
  intros Hperm Hinst Hup. rewrite CombinePackageData_eq.
  apply Forall_app. split.
  - apply Forall_fmap. eapply Forall_impl; [exact Hup|].
    intros u [Hn Ha]. right. unfold enrich.
    destruct (installed !! Name u); [|done]. by case_decide.
  - apply Forall_fmap, Forall_forall. intros [k v] [_ Hin]%list_elem_of_filter.
    left. split; [done|]. cbn.
    rewrite Hperm in Hin. apply elem_of_map_to_list in Hin. eauto.
Qed.

(** C1 (not met by the code).  Every package of a final list should be
    installed with a current version or to be updated with an available
    version.  The Windows manager returns, for an installed update
    whose identity cannot be read, a package with [needsUpdate = false]
    and no current version; the APT path returns one for a listing
    line that has no version between the name and the description. *)
Theorem versionInvariant_broken :
  ((GetPackages (com_of [no_identity]) (com_of [])).1
   = [mkPackage "KB5034441" "Security Update (KB5034441)" "" "" false true]
   ∧ ¬ versionInvariant
         (mkPackage "KB5034441" "Security Update (KB5034441)" "" "" false true))
  ∧ (APT.GetPackages (map_to_list (APT.parseInstalledPackages APT.unversioned_line))
       (Some APT.unversioned_line) (Some "")
     = [mkPackage "vim" "" "" "" false false]
     ∧ ¬ versionInvariant (mkPackage "vim" "" "" "" false false)).
Proof.
  split; (split; [by vm_compute|]); by intros [[_ H]|[H _]].
Qed.

End InvariantFacts.

(** ** Further properties of the reconciler *)

Module ReconcilerMore.
Import Reconciler ReconcilerFacts.

Lemma Name_enrich installed u : Name (enrich installed u) = Name u.
Proof.
  unfold enrich. destruct (installed !! Name u); [|done]. by case_decide.
Qed.

Lemma covered_false (upgradable : list Package) k :
  covered (name_map upgradable) k = false ↔ k ∉ Name <$> upgradable.
Proof. by rewrite <- covered_name_map, not_true_iff_false. Qed.

(** The names of the combined list: those of the upgradable entries,
    then those of the installed values that no upgradable name covers. *)
Lemma CombinePackageData_names iter installed (upgradable : list Package) :
  Name <$> CombinePackageData iter installed upgradable
  = (Name <$> upgradable)
    ++ (Name ∘ snd <$>
          filter (λ kv : string * Package, kv.1 ∉ Name <$> upgradable) iter).
Proof.
  rewrite CombinePackageData_eq, fmap_app, <- !list_fmap_compose.
  f_equal.
  - apply list_fmap_ext. intros i u _. apply Name_enrich.
  - f_equal. apply list_filter_iff. intros kv. apply covered_false.
Qed.

Lemma uncovered_names iter installed (upgradable : list Package) :
  range_order installed iter → keyed_by_name installed →
  Name ∘ snd <$> filter (λ kv : string * Package, kv.1 ∉ Name <$> upgradable) iter
  = (filter (λ kv : string * Package, kv.1 ∉ Name <$> upgradable) iter).*1.
Proof.
  intros Hperm Hkey. apply list_fmap_ext.
  intros i [k v] Hi%list_elem_of_lookup_2. cbn.
  apply list_elem_of_filter in Hi as [_ Hin].
  rewrite Hperm in Hin. apply elem_of_map_to_list in Hin. by apply Hkey.
Qed.

(** X1.  Without installed packages the upgradable sequence is returned
    as it is. *)
Theorem CombinePackageData_nothing_installed iter upgradable :
  range_order ∅ iter →
  CombinePackageData iter ∅ upgradable = upgradable.
Proof.
  unfold range_order. rewrite map_to_list_empty. intros ->%Permutation_nil_r.
  rewrite CombinePackageData_eq, filter_nil, fmap_nil, app_nil_r.
  rewrite <- (list_fmap_id upgradable) at 2. apply list_fmap_ext.
  intros i u _. unfold enrich. by rewrite lookup_empty.
Qed.

Lemma CombinePackageData_nothing_installed_witness :
  CombinePackageData [] ∅ [kb1_up; unflagged_vim] = [kb1_up; unflagged_vim].
Proof.
  apply (CombinePackageData_nothing_installed [] [kb1_up; unflagged_vim]).
  unfold range_order. by rewrite map_to_list_empty.
Defined.

(** X2.  The order in which the installed map is visited only permutes
    the result, and only behind the upgradable entries: two visiting
    orders give lists that are permutations of each other and that agree
    on their first [len(upgradable)] entries. *)
Theorem CombinePackageData_visiting_order iter1 iter2 installed upgradable :
  range_order installed iter1 → range_order installed iter2 →
  CombinePackageData iter1 installed upgradable
    ≡ₚ CombinePackageData iter2 installed upgradable
  ∧ take (length upgradable) (CombinePackageData iter1 installed upgradable)
    = take (length upgradable) (CombinePackageData iter2 installed upgradable).
Proof.
  unfold range_order. intros H1 H2. rewrite !CombinePackageData_eq. split.
  - apply Permutation_app; [done|]. by rewrite H1, H2.
  - by rewrite !take_app_length' by (by rewrite length_fmap).
Qed.

Lemma range_order_kb_swap :
  range_order installed_kb [("KB5034442", kb2); ("KB5034441", kb1)].
Proof.
  unfold range_order. rewrite <- range_order_kb. unfold iter_kb. apply Permutation_swap.
Qed.

Lemma CombinePackageData_visiting_order_witness :
  CombinePackageData iter_kb installed_kb [kb1_up]
    ≡ₚ CombinePackageData [("KB5034442", kb2); ("KB5034441", kb1)] installed_kb [kb1_up].
Proof.
  exact (proj1 (CombinePackageData_visiting_order _ _ installed_kb [kb1_up]
                  range_order_kb range_order_kb_swap)).
Defined.

Lemma combined_NoDup iter installed upgradable :
  range_order installed iter → keyed_by_name installed →
  NoDup (Name <$> upgradable) →
  NoDup (Name <$> CombinePackageData iter installed upgradable).
Proof.
  intros Hperm Hkey Hnd.
  rewrite CombinePackageData_names, (uncovered_names _ _ _ Hperm Hkey).
  apply NoDup_app. split; [done|]. split.
  - intros n Hn [[k v] [-> Hin]]%list_elem_of_fmap.
    by apply list_elem_of_filter in Hin as [Hno _].
  - eapply NoDup_fmap_fst.
    + intros k v1 v2 [_ H1]%list_elem_of_filter [_ H2]%list_elem_of_filter.
      rewrite Hperm in H1, H2. apply elem_of_map_to_list in H1, H2. congruence.
    + apply NoDup_filter. rewrite Hperm. apply NoDup_map_to_list.
Qed.

(** X3.  Deduplication: when the installed map is keyed by package name
    and no name occurs twice in the upgradable sequence, no name occurs
    twice in the combined list. *)
Theorem CombinePackageData_NoDup iter installed upgradable :
  range_order installed iter → keyed_by_name installed →
  NoDup (Name <$> upgradable) →
  NoDup (Name <$> CombinePackageData iter installed upgradable).
Proof. apply combined_NoDup. Qed.

Lemma keyed_by_name_kb : keyed_by_name installed_kb.
Proof.
  intros k v H. unfold installed_kb in H.
  apply lookup_insert_Some in H as [[<- <-]|[_ H]]; [done|].
  apply lookup_insert_Some in H as [[<- <-]|[_ H]]; [done|].
  by rewrite lookup_empty in H.
Qed.

Lemma CombinePackageData_NoDup_witness :
  NoDup (Name <$> CombinePackageData iter_kb installed_kb [kb1_up]).
Proof.
  apply (CombinePackageData_NoDup iter_kb installed_kb [kb1_up]
           range_order_kb keyed_by_name_kb).
  apply NoDup_singleton.
Defined.

(** X4.  Nothing is lost and nothing is invented: when the installed
    map is keyed by package name, the names of the combined list are
    exactly the installed names and the upgradable names. *)
Theorem CombinePackageData_covers iter installed upgradable n :
  range_order installed iter → keyed_by_name installed →
  n ∈ Name <$> CombinePackageData iter installed upgradable
  ↔ n ∈ dom installed ∨ n ∈ Name <$> upgradable.
Proof.
  intros Hperm Hkey.
  rewrite CombinePackageData_names, (uncovered_names _ _ _ Hperm Hkey).
  rewrite elem_of_app, elem_of_dom. split.
  - intros [Hn|Hn]; [by right|].
    apply list_elem_of_fmap in Hn as [[k v] [-> [_ Hin]%list_elem_of_filter]].
    left. rewrite Hperm in Hin. apply elem_of_map_to_list in Hin. by eexists.
  - intros [[v Hv]|Hn]; [|by left].
    destruct (decide (n ∈ Name <$> upgradable)) as [?|Hno]; [by left|].
    right. apply list_elem_of_fmap. exists (n, v). split; [done|].
    apply list_elem_of_filter. split; [done|].
    rewrite Hperm. by apply elem_of_map_to_list.
Qed.

Lemma CombinePackageData_covers_witness :
  "KB5034442" ∈ Name <$> CombinePackageData iter_kb installed_kb [kb1_up].
Proof.
  apply (CombinePackageData_covers iter_kb installed_kb [kb1_up] "KB5034442"
           range_order_kb keyed_by_name_kb).
  left. apply elem_of_dom. by eexists.
Defined.

Lemma filter_needsUpdate_enrich installed (upgradable : list Package) :
  length (filter (λ p, NeedsUpdate p = true) (enrich installed <$> upgradable))
  = length (filter (λ p, NeedsUpdate p = true) upgradable).
Proof.
  induction upgradable as [|u l IH]; [done|].
  rewrite fmap_cons, !filter_cons, NeedsUpdate_enrich.
  destruct (decide (NeedsUpdate u = true)); cbn; by rewrite IH.
Qed.

Lemma filter_needsUpdate_installed_only (l : list (string * Package)) :
  filter (λ p, NeedsUpdate p = true) (installed_only ∘ snd <$> l) = [].
Proof.
  induction l as [|kv l IH]; [done|].
  rewrite fmap_cons, filter_cons. cbn. by rewrite decide_False by done.
Qed.

(** X5.  The reconciler neither raises nor clears an update flag: the
    combined list has as many entries that need an update as the
    upgradable sequence has. *)
Theorem CombinePackageData_needsUpdate_count iter installed upgradable :
  length (filter (λ p, NeedsUpdate p = true)
            (CombinePackageData iter installed upgradable))
  = length (filter (λ p, NeedsUpdate p = true) upgradable).
Proof.
  rewrite CombinePackageData_eq, filter_app, length_app.
  rewrite filter_needsUpdate_enrich, filter_needsUpdate_installed_only.
  cbn. lia.
Qed.

(** X6.  What is kept of an installed package that has no upgrade: the
    entries behind the upgradable ones are exactly the installed values
    whose key is not an upgradable name, each reduced to its name and
    current version; description, available version and flags are
    blank. *)
Theorem CombinePackageData_installed_entries iter installed upgradable :
  range_order installed iter →
  (∀ i p, length upgradable ≤ i →
     CombinePackageData iter installed upgradable !! i = Some p →
     ∃ k v, installed !! k = Some v ∧ (k ∉ Name <$> upgradable)
            ∧ p = mkPackage (Name v) "" (CurrentVersion v) "" false false)
  ∧ (∀ k v, installed !! k = Some v → k ∉ Name <$> upgradable →
       mkPackage (Name v) "" (CurrentVersion v) "" false false
         ∈ drop (length upgradable) (CombinePackageData iter installed upgradable)).
Proof.
  intros Hperm. rewrite CombinePackageData_eq. split.
  - intros i p Hle Hp.
    rewrite lookup_app_r in Hp by (by rewrite length_fmap).
    apply list_lookup_fmap_Some in Hp as ([k v] & -> & Hkv).
    apply list_elem_of_lookup_2, list_elem_of_filter in Hkv as [Hc Hin].
    exists k, v. rewrite Hperm in Hin. apply elem_of_map_to_list in Hin.
    split; [done|]. split; [by apply covered_false|done].
  - intros k v Hv Hno.
    rewrite drop_app_length' by (by rewrite length_fmap).
    apply list_elem_of_fmap. exists (k, v). split; [done|].
    apply list_elem_of_filter. split; [by apply covered_false|].
    rewrite Hperm. by apply elem_of_map_to_list.
Qed.

Lemma CombinePackageData_installed_entries_witness :
  mkPackage "KB5034442" "" "2.0" "" false false
    ∈ drop 1 (CombinePackageData iter_kb installed_kb [kb1_up]).
Proof.
  apply (proj2 (CombinePackageData_installed_entries iter_kb installed_kb [kb1_up]
                  range_order_kb) "KB5034442" kb2).
  - done.
  - intros H. apply list_elem_of_singleton in H. discriminate H.
Defined.

End ReconcilerMore.

(** ** Further properties of the APT parsers *)

Module APTMore.
Import strings stringsFacts APT APTFacts Reconciler ReconcilerFacts.

(** *** The installed listing *)

Lemma Cut_before c s before after :
  Cut s (String c "") = Some (before, after) →
  Contains before (String c "") = false ∧ s = before +:+ String c after.
Proof.
  revert before. induction s as [|a s IH]; intros before; [done|].
  cbn [Cut]. cbn [HasPrefix]. destruct (decide (c = a)) as [->|Hne].
  - intros [= <- <-]. done.
  - destruct (Cut s (String c "")) as [[b' a']|]; [|done].
    intros [= <- <-]. destruct (IH b' eq_refl) as [Hno ->].
    split; [|done]. cbn [Contains HasPrefix]. by rewrite decide_False.
Qed.

(** The parts of a package line: two or three, the first two free of
    spaces, and together the line again. *)
Lemma packageLine_parts m t m' p :
  packageLine m t = (m', Some p) →
  m' = <[Name p := p]> m
  ∧ noSpace (Name p) ∧ noSpace (CurrentVersion p)
  ∧ AvailableVersion p = "" ∧ NeedsUpdate p = false ∧ IsSecurityUpdate p = false
  ∧ (t = Name p +:+ " " +:+ CurrentVersion p ∧ Description p = ""
     ∨ t = Name p +:+ " " +:+ CurrentVersion p +:+ " " +:+ Description p).
Proof.
  unfold packageLine. cbn [SplitN].
  destruct (Cut t " ") as [[name rest]|] eqn:H1; [|done].
  apply Cut_before in H1 as [Hn ->].
  destruct (Cut rest " ") as [[version desc]|] eqn:H2.
  - apply Cut_before in H2 as [Hv ->]. cbn. intros [= <- <-]. cbn.
    repeat split; try done. by right.
  - cbn. intros [= <- <-]. cbn. repeat split; try done.
    + by apply Cut_none_inv.
    + by left.
Qed.

Lemma installedLine_inv st line : installedInv st → installedInv (installedLine st line).
Proof.
  destruct st as [m cur]. intros [Hm Hcur]. unfold installedLine.
  destruct (decide (TrimSpace line = "")); [done|]. cbn [fst snd] in *.
  assert (Hpkg : installedInv (packageLine m (TrimSpace line))).
  { destruct (packageLine m (TrimSpace line)) as [m' [p|]] eqn:Hp.
    - apply packageLine_parts in Hp as (-> & Hn & Hv & Ha & Hu & Hs & _).
      split; cbn.
      + intros k q [[<- <-]|[_ Hq]]%lookup_insert_Some; [done|by apply Hm].
      + intros q [= <-]. apply lookup_insert_eq.
    - unfold packageLine in Hp.
      destruct (length (SplitN (TrimSpace line) " " 3) <? 2); [|done].
      injection Hp as <-. split; cbn; [done|done]. }
  destruct cur as [p|]; [|done].
  destruct (HasPrefix line " "); [|done].
  destruct (Hm _ _ (Hcur p eq_refl)) as (_ & Hn & Hv & Ha & Hu & Hs).
  unfold descriptionLine. split; cbn.
  - intros k q [[<- <-]|[_ Hq]]%lookup_insert_Some; [done|by apply Hm].
  - intros q [= <-]. apply lookup_insert_eq.
Qed.

Lemma fold_installedLine_inv lines st :
  installedInv st → installedInv (fold_left installedLine lines st).
Proof.
  revert st. induction lines as [|l lines IH]; intros st Hst; [done|].
  cbn. by apply IH, installedLine_inv.
Qed.

(** X7.  Whatever the listing, the installed map of the APT manager is
    keyed by package name, neither a name nor a version in it has a
    space, and every entry has [needsUpdate = false], no available
    version and no security flag. *)
Theorem parseInstalledPackages_entries output k p :
  parseInstalledPackages output !! k = Some p → installedEntry k p.
Proof.
  unfold parseInstalledPackages.
  assert (H : installedInv (fold_left installedLine (bufio.Scan output) (∅, None))).
  { apply fold_installedLine_inv. split; cbn; [|done].
    intros ? ?. by rewrite lookup_empty. }
  apply H.
Qed.

Lemma parseInstalledPackages_entries_witness : installedEntry "vim" vim_package.
Proof.
  apply (parseInstalledPackages_entries vim_installed_line "vim" vim_package).
  by vm_compute.
Defined.

(** X8.  Nothing of a package line is lost: the name, the version and,
    when there is one, the description that the line records, put
    together with single spaces, are the trimmed line again. *)
Theorem installedLine_round_trip m cur line p :
  TrimSpace line ≠ "" → continuation cur line = false →
  (installedLine (m, cur) line).2 = Some p →
  (TrimSpace line = Name p +:+ " " +:+ CurrentVersion p ∧ Description p = "")
  ∨ TrimSpace line = Name p +:+ " " +:+ CurrentVersion p +:+ " " +:+ Description p.
Proof.
  intros Hne Hc. rewrite installedLine_package by done.
  destruct (packageLine m (TrimSpace line)) as [m' q] eqn:Hp. cbn. intros ->.
  by apply packageLine_parts in Hp as (_ & _ & _ & _ & _ & _ & H).
Qed.

Lemma installedLine_round_trip_witness :
  (vim_installed_line = "vim" +:+ " " +:+ "2:8.2.3995-1ubuntu2.17" ∧ Description vim_package = "")
  ∨ vim_installed_line
    = "vim" +:+ " " +:+ "2:8.2.3995-1ubuntu2.17" +:+ " " +:+ "Vi IMproved - enhanced vi editor".
Proof.
  apply (installedLine_round_trip ∅ None vim_installed_line vim_package);
    by vm_compute.
Defined.

Lemma Join_cons e e' l sep : Join (e :: e' :: l) sep = e +:+ sep +:+ Join (e' :: l) sep.
Proof. reflexivity. Qed.

Lemma Join_app_head a b l sep : Join ((a +:+ b) :: l) sep = a +:+ Join (b :: l) sep.
Proof.
  destruct l as [|e l]; [done|]. by rewrite !Join_cons, app_assoc.
Qed.

(** X9.  Continuation lines add up: after a package has been recorded,
    a run of indented, non-blank lines leaves that package current and
    stores it with its description followed by the trimmed lines, one
    line feed before each; no other entry of the map changes. *)
Theorem installedLine_continuations m p conts :
  m !! Name p = Some p →
  Forall (λ l, HasPrefix l " " = true ∧ TrimSpace l ≠ "") conts →
  fold_left installedLine conts (m, Some p)
  = (<[Name p := withDescription p (TrimSpace <$> conts)]> m,
     Some (withDescription p (TrimSpace <$> conts))).
Proof.
  intros Hp Hconts. revert m p Hp.
  induction Hconts as [|l conts [Hl Hne] _ IH]; intros m p Hp.
  - cbn. destruct p. cbn in *. by rewrite insert_id.
  - cbn [fold_left]. unfold installedLine at 2.
    rewrite decide_False by done. cbn [fst snd]. rewrite Hl.
    unfold descriptionLine. cbn [Name]. rewrite IH by apply lookup_insert_eq.
    cbn [Name]. rewrite insert_insert_eq.
    unfold withDescription. cbn [Name Description CurrentVersion AvailableVersion
                                   NeedsUpdate IsSecurityUpdate].
    by rewrite fmap_cons, Join_cons, !Join_app_head.
Qed.

Lemma installedLine_continuations_witness :
  fold_left installedLine bash_continuations ({[ "bash" := bash_package ]}, Some bash_package)
  = (<["bash" := withDescription bash_package ["Bash is an sh-compatible shell"; "."]]>
       {[ "bash" := bash_package ]},
     Some (withDescription bash_package ["Bash is an sh-compatible shell"; "."])).
Proof.
  apply (installedLine_continuations {[ "bash" := bash_package ]} bash_package
           bash_continuations).
  - apply lookup_singleton_eq.
  - repeat constructor; by vm_compute.
Defined.

(** *** The upgrade simulation and [GetPackages] *)

Lemma upgradeLine_cases text :
  upgradeLine [] text = []
  ∨ ∃ p, upgradeLine [] text = [p] ∧ isInstLine text = true ∧ upgradeCandidate p.
Proof.
  unfold upgradeLine, isInstLine, upgradeCandidate.
  destruct (HasPrefix (TrimSpace text) "Inst "); cbn [negb]; [|by left].
  destruct (length (Fields (TrimSpace text)) <? 4); [by left|].
  destruct (nonEmpty (default "" (Fields (TrimSpace text) !! 1))) eqn:Hn; [|by left].
  destruct (nonEmpty (currentVersionOf (Fields (TrimSpace text)))) eqn:Hc; [|by left].
  destruct (nonEmpty (availableVersionOf (Fields (TrimSpace text)))) eqn:Ha; [|by left].
  apply nonEmpty_true in Hn, Hc, Ha. right. eexists. cbn. split; [done|]. done.
Qed.

Lemma parseAPTUpgrade_candidates output :
  Forall upgradeCandidate (parseAPTUpgrade output).
Proof.
  unfold parseAPTUpgrade. rewrite fold_upgradeLine. cbn.
  induction (bufio.Scan output) as [|t ts IH]; [done|].
  cbn. apply Forall_app. split; [|done].
  destruct (upgradeLine_cases t) as [->|(p & -> & _ & Hp)]; [done|].
  by apply Forall_singleton.
Qed.

Lemma upgradableOf_candidates up : Forall upgradeCandidate (upgradableOf up).
Proof. destruct up; [apply parseAPTUpgrade_candidates|done]. Qed.

(** X10.  The upgrade parser yields at most one candidate for each line
    that starts with "Inst ", and none for any other line: there are no
    more candidates than such lines. *)
Theorem parseAPTUpgrade_at_most_inst_lines output :
  length (parseAPTUpgrade output)
  ≤ length (filter (λ t, isInstLine t = true) (bufio.Scan output)).
Proof.
  unfold parseAPTUpgrade. rewrite fold_upgradeLine, app_nil_l.
  induction (bufio.Scan output) as [|t ts IH]; [done|].
  rewrite fmap_cons. cbn [concat]. rewrite List.length_app, filter_cons.
  destruct (upgradeLine_cases t) as [->|(p & -> & Hi & _)].
  - cbn [length]. destruct (decide (isInstLine t = true)); cbn [length]; lia.
  - rewrite decide_True by done. cbn [length]. lia.
Qed.

(** X11.  In the list of the APT manager the update flag tells where an
    entry comes from: an entry has [needsUpdate = true] exactly when it
    is one of the leading entries made from the upgrade simulation, and
    then it has a current and an available version. *)
Theorem GetPackages_needsUpdate iter installedOutput upgradeOutput i p :
  GetPackages iter installedOutput upgradeOutput !! i = Some p →
  (NeedsUpdate p = true ↔ i < length (upgradableOf upgradeOutput))
  ∧ (NeedsUpdate p = true → CurrentVersion p ≠ "" ∧ AvailableVersion p ≠ "").
Proof.
  change (GetPackages iter installedOutput upgradeOutput)
    with (CombinePackageData iter (installedOf installedOutput)
            (upgradableOf upgradeOutput)).
  pose proof (upgradableOf_candidates upgradeOutput) as Hall.
  rewrite Forall_forall in Hall.
  intros [(u & Hu & ->)|(Hle & kv & _ & ->)]%lookup_combined.
  - destruct (Hall u (list_elem_of_lookup_2 _ _ _ Hu)) as (Hn & _ & _ & Hc & Ha).
    apply lookup_lt_Some in Hu. rewrite NeedsUpdate_enrich. split; [done|].
    intros _. unfold enrich.
    destruct (_ !! Name u); [|done]. by case_decide.
  - cbn. split; [|done]. split; [done|lia].
Qed.

Lemma GetPackages_needsUpdate_witness :
  (true = true ↔ 0 < length (upgradableOf (Some vim_upgrade_line)))
  ∧ (true = true → "2:8.2.3995-1ubuntu2.16" ≠ "" ∧ "2:8.2.3995-1ubuntu2.17" ≠ "").
Proof.
  apply (GetPackages_needsUpdate
           (map_to_list (parseInstalledPackages vim_installed_line))
           (Some vim_installed_line) (Some vim_upgrade_line) 0
           (mkPackage "vim" "Vi IMproved - enhanced vi editor" "2:8.2.3995-1ubuntu2.16"
              "2:8.2.3995-1ubuntu2.17" true false)).
  by vm_compute.
Defined.

(** X12.  An upgrade candidate has no description of its own, so in
    the list of the APT manager entry [i] is candidate [i] with the
    description of the installed package of that name, or without one
    when the name is not installed. *)
Theorem GetPackages_description iter installedOutput upgradeOutput i u :
  upgradableOf upgradeOutput !! i = Some u →
  GetPackages iter installedOutput upgradeOutput !! i
  = Some (mkPackage (Name u)
            (default "" (Description <$> installedOf installedOutput !! Name u))
            (CurrentVersion u) (AvailableVersion u) true (IsSecurityUpdate u)).
Proof.
  change (GetPackages iter installedOutput upgradeOutput)
    with (CombinePackageData iter (installedOf installedOutput)
            (upgradableOf upgradeOutput)).
  intros Hu. pose proof (upgradableOf_candidates upgradeOutput) as Hall.
  rewrite Forall_forall in Hall.
  destruct (Hall u (list_elem_of_lookup_2 _ _ _ Hu)) as (Hn & Hd & _).
  rewrite CombinePackageData_eq, lookup_app_l
    by (rewrite length_fmap; by eapply lookup_lt_Some).
  rewrite list_lookup_fmap, Hu. cbn. f_equal. unfold enrich.
  destruct (installedOf installedOutput !! Name u) as [ip|]; cbn.
  - rewrite decide_True by done. by rewrite Hn.
  - destruct u. cbn in *. by subst.
Qed.

Lemma GetPackages_description_witness :
  GetPackages (map_to_list (parseInstalledPackages vim_installed_line))
    (Some vim_installed_line) (Some vim_upgrade_line) !! 0
  = Some (mkPackage "vim" "Vi IMproved - enhanced vi editor" "2:8.2.3995-1ubuntu2.16"
            "2:8.2.3995-1ubuntu2.17" true false).
Proof.
  apply (GetPackages_description
           (map_to_list (parseInstalledPackages vim_installed_line))
           (Some vim_installed_line) (Some vim_upgrade_line) 0
           (mkPackage "vim" "" "2:8.2.3995-1ubuntu2.16" "2:8.2.3995-1ubuntu2.17"
              true false)).
  by vm_compute.
Defined.

(** X13.  A listing command that fails costs only its own part: without
    the installed listing the list of the APT manager is the list of
    candidates, and without the upgrade simulation it has one entry for
    each installed package, none of which needs an update. *)
Theorem GetPackages_degraded iter installedOutput upgradeOutput :
  range_order (installedOf installedOutput) iter →
  (installedOutput = None →
   GetPackages iter installedOutput upgradeOutput = upgradableOf upgradeOutput)
  ∧ (upgradeOutput = None →
     length (GetPackages iter installedOutput upgradeOutput)
     = size (installedOf installedOutput)
     ∧ Forall (λ p, NeedsUpdate p = false)
         (GetPackages iter installedOutput upgradeOutput)).
Proof.
  change (GetPackages iter installedOutput upgradeOutput)
    with (CombinePackageData iter (installedOf installedOutput)
            (upgradableOf upgradeOutput)).
  intros Hperm. split.
  - intros ->. cbn in *. unfold range_order in Hperm.
    rewrite map_to_list_empty in Hperm. apply Permutation_nil_r in Hperm as ->.
    rewrite CombinePackageData_eq, filter_nil, fmap_nil, app_nil_r.
    rewrite <- (list_fmap_id (upgradableOf upgradeOutput)) at 2.
    apply list_fmap_ext. intros i u _. unfold enrich. by rewrite lookup_empty.
  - intros ->. cbn [upgradableOf]. rewrite CombinePackageData_eq. cbn [fmap list_fmap app].
    assert (Hall : filter (λ kv : string * Package,
                             covered (name_map []) kv.1 = false) iter = iter).
    { clear. induction iter as [|kv iter IH]; [done|].
      rewrite filter_cons, decide_True, IH; [done|].
      unfold covered, name_map. cbn. by rewrite lookup_empty. }
    rewrite Hall, length_fmap, Hperm, length_map_to_list. split; [done|].
    apply Forall_fmap, Forall_forall. by intros.
Qed.

Lemma GetPackages_degraded_witness :
  GetPackages [] None (Some vim_upgrade_line) = upgradableOf (Some vim_upgrade_line).
Proof.
  refine (proj1 (GetPackages_degraded [] None (Some vim_upgrade_line) _) eq_refl).
  unfold range_order. cbn. by rewrite map_to_list_empty.
Defined.

Lemma installedOf_keyed installedOutput : keyed_by_name (installedOf installedOutput).
Proof.
  intros k p. destruct installedOutput as [out|]; cbn [installedOf];
    [|by rewrite lookup_empty].
  unfold parseInstalledPackages.
  assert (H : installedInv (fold_left installedLine (bufio.Scan out) (∅, None))).
  { apply fold_installedLine_inv. split; cbn; [|done].
    intros ? ?. by rewrite lookup_empty. }
  intros Hp. by destruct (proj1 H k p Hp).
Qed.

(** X14.  The APT manager lists every name once, provided the upgrade
    simulation names no package twice: the installed map is keyed by
    the names of its entries, whatever the listing, so an installed
    package that is also a candidate appears only as the candidate. *)
Theorem GetPackages_unique_names iter installedOutput upgradeOutput :
  range_order (installedOf installedOutput) iter →
  NoDup (Name <$> upgradableOf upgradeOutput) →
  NoDup (Name <$> GetPackages iter installedOutput upgradeOutput).
Proof.
  intros Hperm Hnd.
  change (GetPackages iter installedOutput upgradeOutput)
    with (CombinePackageData iter (installedOf installedOutput)
            (upgradableOf upgradeOutput)).
  apply ReconcilerMore.combined_NoDup; [done|apply installedOf_keyed|done].
Qed.

Lemma GetPackages_unique_names_witness :
  NoDup (Name <$> GetPackages (map_to_list (parseInstalledPackages vim_installed_line))
                    (Some vim_installed_line) (Some vim_upgrade_line)).
Proof.
  apply (GetPackages_unique_names
           (map_to_list (parseInstalledPackages vim_installed_line))
           (Some vim_installed_line) (Some vim_upgrade_line)).
  - unfold range_order. reflexivity.
  - assert (H : Name <$> upgradableOf (Some vim_upgrade_line) = ["vim"])
      by (by vm_compute).
    rewrite H. apply NoDup_singleton.
Defined.

End APTMore.

(** ** Further properties of the DNF parsers *)

Module DNFMore.
Import strings stringsFacts DNF DNFFacts Reconciler.

(** *** The installed listing *)

Lemma fieldsOf_nonempty ps cur : Forall (λ f, f ≠ "") (fieldsOf ps cur).
Proof.
  assert (Hemit : ∀ c, Forall (λ f, f ≠ "") (emit c)).
  { intros c. unfold emit. destruct (decide (c = "")); by repeat constructor. }
  revert cur. induction ps as [|[enc|c] ps IH]; intros cur; cbn [fieldsOf].
  - apply Hemit.
  - apply Forall_app. split; [apply Hemit|apply IH].
  - apply IH.
Qed.

(** No field is empty. *)
Lemma Fields_nonempty s : Forall (λ f, f ≠ "") (Fields s).
Proof. apply fieldsOf_nonempty. Qed.

Lemma installedLine_entry m text :
  installedLine m text
  = match lineEntry text with
    | Some (k, v) => <[k := v]> m
    | None => m
    end.
Proof.
  unfold installedLine, lineEntry.
  destruct (isInstalledHeader (TrimSpace text)); [done|].
  by destruct (Fields (TrimSpace text)) as [|name [|version rest]].
Qed.

Lemma lineEntry_nonempty text k v : lineEntry text = Some (k, v) → k ≠ "" ∧ v ≠ "".
Proof.
  unfold lineEntry. destruct (isInstalledHeader (TrimSpace text)); [done|].
  pose proof (Fields_nonempty (TrimSpace text)) as H.
  destruct (Fields (TrimSpace text)) as [|name [|version rest]]; [done..|].
  intros [= <- <-]. apply Forall_cons in H as [? H]. by apply Forall_cons in H as [? _].
Qed.

Lemma fold_installedLine_nonempty lines (m : gmap string string) :
  (∀ k v, m !! k = Some v → k ≠ "" ∧ v ≠ "") →
  ∀ k v, fold_left installedLine lines m !! k = Some v → k ≠ "" ∧ v ≠ "".
Proof.
  revert m. induction lines as [|l lines IH]; intros m Hm; [done|].
  cbn [fold_left]. apply IH. rewrite installedLine_entry.
  destruct (lineEntry l) as [[k' v']|] eqn:Hl; [|done].
  intros k v [[<- <-]|[_ Hk]]%lookup_insert_Some; [|by apply Hm].
  by apply lineEntry_nonempty in Hl.
Qed.

Lemma parseInstalledPackages_nonempty output k v :
  parseInstalledPackages output !! k = Some v → k ≠ "" ∧ v ≠ "".
Proof.
  apply fold_installedLine_nonempty. intros ? ?. by rewrite lookup_empty.
Qed.

(** X15.  The installed map of the DNF manager holds, for every name,
    the version of the last line of the listing that names it; a name
    that no line gives is absent. *)
Theorem parseInstalledPackages_last_wins output k :
  parseInstalledPackages output !! k
  = snd <$> last (filter (λ kv : string * string, kv.1 = k) (listingEntries output)).
Proof.
  unfold parseInstalledPackages, listingEntries.
  induction (bufio.Scan output) as [|l lines IH] using rev_ind;
    [cbn; by rewrite lookup_empty|].
  rewrite fold_left_app, omap_app, filter_app. cbn [fold_left].
  rewrite installedLine_entry, (WindowsFacts.omap_cons lineEntry l []).
  change (omap lineEntry []) with (@nil (string * string)).
  destruct (lineEntry l) as [[k' v']|]; cbn [option_list option_rect app].
  - destruct (decide (k' = k)) as [->|Hne].
    + rewrite lookup_insert_eq, filter_cons, decide_True by done.
      by rewrite filter_nil, last_snoc.
    + rewrite lookup_insert_ne, filter_cons, decide_False by done.
      by rewrite filter_nil, app_nil_r.
  - by rewrite filter_nil, app_nil_r.
Qed.

Example parseInstalledPackages_twice :
  parseInstalledPackages listing_twice !! "bash.x86_64" = Some "5.1.8-9.el9".
Proof. by vm_compute. Qed.

(** X16.  The installed map never holds an empty name or an empty
    version, so the test [installedPackages[name] == ""] of the upgrade
    parser succeeds exactly for the names that are not installed. *)
Theorem parseInstalledPackages_versionOf output :
  (∀ k v, parseInstalledPackages output !! k = Some v → k ≠ "" ∧ v ≠ "")
  ∧ (∀ k, versionOf (parseInstalledPackages output) k = ""
          ↔ parseInstalledPackages output !! k = None).
Proof.
  split; [apply parseInstalledPackages_nonempty|].
  intros k. unfold versionOf.
  destruct (parseInstalledPackages output !! k) as [v|] eqn:Hv; cbn; [|done].
  split; [|done]. intros ->. by destruct (parseInstalledPackages_nonempty _ _ _ Hv).
Qed.

(** *** The resolution of the current version *)

Lemma baseNameScan_order iter1 iter2 (installed : gmap string string) name :
  range_order installed iter1 → range_order installed iter2 →
  (∀ k1 k2 v1 v2, installed !! k1 = Some v1 → installed !! k2 = Some v2 →
     sameBase name k1 → sameBase name k2 → v1 = v2) →
  baseNameScan iter1 name = baseNameScan iter2 name.
Proof.
  unfold range_order, baseNameScan. intros H1 H2 Hsame.
  set (P := λ kv : string * string,
              baseNameOf kv.1 = baseNameOf name ∨ baseNameOf kv.1 = name).
  destruct (list_find P iter1) as [[i [k1 v1]]|] eqn:Hf1;
    destruct (list_find P iter2) as [[j [k2 v2]]|] eqn:Hf2; cbn; [| | |done].
  - apply list_find_Some in Hf1 as (Hi & HP1 & _).
    apply list_find_Some in Hf2 as (Hj & HP2 & _).
    apply list_elem_of_lookup_2 in Hi, Hj. rewrite H1 in Hi. rewrite H2 in Hj.
    apply elem_of_map_to_list in Hi, Hj. by apply (Hsame k1 k2).
  - apply list_find_Some in Hf1 as (Hi & HP1 & _).
    apply list_elem_of_lookup_2 in Hi. rewrite H1, <- H2 in Hi.
    destruct (list_find_elem_of P iter2 _ Hi HP1) as [? Hsome]. congruence.
  - apply list_find_Some in Hf2 as (Hj & HP2 & _).
    apply list_elem_of_lookup_2 in Hj. rewrite H2, <- H1 in Hj.
    destruct (list_find_elem_of P iter1 _ Hj HP2) as [? Hsome]. congruence.
Qed.

(** The loop over the installed map always runs with the base name of
    the candidate. *)
Lemma resolveInstalled_eq iter installed name :
  resolveInstalled iter installed name
  = if decide (versionOf installed name = "") then
      match stripArch name with
      | Some base =>
          if decide (versionOf installed base = "")
          then scanInstalled iter (baseNameOf name) name
          else versionOf installed base
      | None => scanInstalled iter (baseNameOf name) name
      end
    else versionOf installed name.
Proof.
  unfold resolveInstalled, baseNameOf.
  destruct (decide (versionOf installed name = "")) as [Ha|Ha]; [|done].
  destruct (stripArch name) as [base|]; cbn [default from_option id]; [done|].
  by rewrite decide_True by done.
Qed.

(** X17.  The current version resolved from the installed map depends
    on the order in which Go visits the map only through the choice
    among several matching keys: when the installed keys that share the
    base name of the candidate all have one version, every visiting
    order gives the same current version. *)
Theorem resolveInstalled_visiting_order iter1 iter2 (installed : gmap string string) name :
  range_order installed iter1 → range_order installed iter2 →
  (∀ k1 k2 v1 v2, installed !! k1 = Some v1 → installed !! k2 = Some v2 →
     sameBase name k1 → sameBase name k2 → v1 = v2) →
  resolveInstalled iter1 installed name = resolveInstalled iter2 installed name.
Proof.
  intros H1 H2 Hsame. rewrite !resolveInstalled_eq, !scanInstalled_find.
  by rewrite (baseNameScan_order iter1 iter2 installed name H1 H2 Hsame).
Qed.

Lemma range_order_rpm : range_order installed_rpm iter_rpm.
Proof.
  unfold range_order, installed_rpm, iter_rpm.
  rewrite map_to_list_insert by done.
  by rewrite insert_empty, map_to_list_singleton.
Qed.

Lemma range_order_rpm_swap :
  range_order installed_rpm
    [("vim-minimal.x86_64", "8.2.2637-20.el9"); ("bash.x86_64", "5.1.8-6.el9")].
Proof.
  unfold range_order. rewrite <- range_order_rpm. unfold iter_rpm. apply Permutation_swap.
Qed.

Lemma resolveInstalled_visiting_order_witness :
  resolveInstalled iter_rpm installed_rpm "vim-minimal"
  = resolveInstalled
      [("vim-minimal.x86_64", "8.2.2637-20.el9"); ("bash.x86_64", "5.1.8-6.el9")]
      installed_rpm "vim-minimal".
Proof.
  apply (resolveInstalled_visiting_order _ _ installed_rpm "vim-minimal"
           range_order_rpm range_order_rpm_swap).
  intros k1 k2 v1 v2 Hk1 Hk2 Hs1 Hs2. unfold installed_rpm in Hk1, Hk2.
  apply lookup_insert_Some in Hk1 as [[<- <-]|[_ Hk1]];
    [by vm_compute in Hs1; destruct Hs1|].
  apply lookup_insert_Some in Hk1 as [[<- <-]|[_ Hk1]];
    [|by rewrite lookup_empty in Hk1].
  apply lookup_insert_Some in Hk2 as [[<- <-]|[_ Hk2]];
    [by vm_compute in Hs2; destruct Hs2|].
  apply lookup_insert_Some in Hk2 as [[<- <-]|[_ Hk2]];
    [done|by rewrite lookup_empty in Hk2].
Defined.

(** With two architectures installed in different versions, the version
    found for the bare name is that of the key visited first. *)
Example resolveInstalled_multilib :
  resolveInstalled [("glibc.x86_64", "2.34-60"); ("glibc.i686", "2.34-40")]
    installed_multilib "glibc" = "2.34-60"
  ∧ resolveInstalled [("glibc.i686", "2.34-40"); ("glibc.x86_64", "2.34-60")]
      installed_multilib "glibc" = "2.34-40".
Proof. by vm_compute. Qed.

(** X18.  The parser never makes a current version up from the
    installed map: a non-empty version resolved from it is the version
    of an installed key that is the candidate name, the candidate name
    without its architecture, or a key with the base name of the
    candidate. *)
Theorem resolveInstalled_installed iter (installed : gmap string string) name v :
  range_order installed iter →
  resolveInstalled iter installed name = v → v ≠ "" →
  ∃ key, installed !! key = Some v
         ∧ (key = name ∨ stripArch name = Some key ∨ sameBase name key).
Proof.
  intros Hperm Hv Hne. rewrite resolveInstalled_eq, scanInstalled_find in Hv.
  assert (Hscan : baseNameScan iter name = v →
                  ∃ key, installed !! key = Some v
                         ∧ (key = name ∨ stripArch name = Some key ∨ sameBase name key)).
  { intros Hs. destruct (baseNameScan_installed iter installed name v Hperm Hs Hne)
      as (key & Hk & Hb). exists key. split; [done|]. by right; right. }
  assert (Hlook : ∀ k, versionOf installed k = v → installed !! k = Some v).
  { intros k. unfold versionOf. destruct (installed !! k); cbn; congruence. }
  destruct (decide (versionOf installed name = "")) as [_|_].
  - destruct (stripArch name) as [base|]; [|by apply Hscan].
    destruct (decide (versionOf installed base = "")) as [_|_]; [by apply Hscan|].
    exists base. split; [by apply Hlook|]. by right; left.
  - exists name. split; [by apply Hlook|]. by left.
Qed.

Lemma resolveInstalled_installed_witness :
  ∃ key, installed_rpm !! key = Some "8.2.2637-20.el9"
         ∧ (key = "vim-minimal" ∨ stripArch "vim-minimal" = Some key
            ∨ sameBase "vim-minimal" key).
Proof.
  apply (resolveInstalled_installed iter_rpm installed_rpm "vim-minimal"
           "8.2.2637-20.el9" range_order_rpm).
  - by vm_compute.
  - done.
Defined.

(** *** The two parsers together *)

(** X19.  A check-update line of at least three fields whose first
    field is a key of the parsed installed listing always yields its
    candidate, with the listed version as current version, whatever the
    visiting order of the map and whatever the command would answer. *)
Theorem upgradableLine_listed e listing packages text name avail repo rest v :
  isHeader (TrimSpace text) = false →
  Fields (TrimSpace text) = name :: avail :: repo :: rest →
  parseInstalledPackages listing !! name = Some v →
  upgradableLine e (parseInstalledPackages listing) packages text
  = packages ++ [mkPackage name "" v avail true (Contains (ToLower repo) "security")].
Proof.
  intros Hh Hf Hv. unfold upgradableLine. rewrite Hh, Hf.
  cbn [length Nat.ltb Nat.leb lookup list_lookup default from_option id].
  destruct (parseInstalledPackages_nonempty _ _ _ Hv) as [Hn Hvne].
  pose proof (Fields_nonempty (TrimSpace text)) as Hall. rewrite Hf in Hall.
  apply Forall_cons in Hall as [_ Hall]. apply Forall_cons in Hall as [Ha _].
  assert (Hr : resolveCurrentVersion e (parseInstalledPackages listing) name = v).
  { unfold resolveCurrentVersion. rewrite resolveInstalled_eq.
    unfold versionOf. rewrite Hv. cbn [default from_option id].
    destruct (decide (v = "")) as [?|_]; [done|].
    by destruct (decide (v = "")). }
  rewrite Hr.
  by rewrite (proj2 (nonEmpty_true name) Hn), (proj2 (nonEmpty_true v) Hvne),
    (proj2 (nonEmpty_true avail) Ha).
Qed.

Lemma upgradableLine_listed_witness :
  upgradableLine env_rpm (parseInstalledPackages listing_twice) [] bash_update_line
  = [] ++ [mkPackage "bash.x86_64" "" "5.1.8-9.el9" "5.1.8-9.el9" true
             (Contains (ToLower "baseos") "security")].
Proof.
  apply (upgradableLine_listed env_rpm listing_twice [] bash_update_line
           "bash.x86_64" "5.1.8-9.el9" "baseos" [] "5.1.8-9.el9");
    by vm_compute.
Defined.

End DNFMore.

(** ** Further properties of the Windows Update manager and of the report *)

Module WindowsMore.
Import strings stringsFacts Reconciler ReconcilerFacts Windows WindowsFacts
  InvariantFacts commands.

(** *** The search *)

(** A search fails before the loop, with no package, or reaches the
    collection and gives the packages of its items. *)
Lemma searchUpdates_cases com criteria :
  (∃ e, searchUpdates com criteria = ([], Some e))
  ∨ (∃ updates count,
       searchUpdates com criteria
       = (omap (itemPackage updates criteria) (seq 0 (N.to_nat count)), None)).
Proof.
  unfold searchUpdates.
  destruct (match CoInitializeEx com with
            | CoInitOk => false
            | CoInitOleError code => bool_decide (code ≠ 1%Z)
            | CoInitOtherError => true
            end); [by left; eexists|].
  destruct (CreateObject com) as [unknown|]; [|by left; eexists].
  destruct (QueryInterface unknown) as [session|]; [|by left; eexists].
  destruct (CreateUpdateSearcher session) as [searcher|]; [|by left; eexists].
  destruct (Search searcher criteria) as [result|]; [|by left; eexists].
  destruct (Updates result) as [updates|]; [|by left; eexists].
  destruct (Count updates) as [count|]; [|by left; eexists].
  right. exists updates, count. by rewrite fold_itemStep.
Qed.

Lemma orEmpty_searchUpdates com criteria :
  orEmpty (searchUpdates com criteria) = (searchUpdates com criteria).1.
Proof.
  unfold orEmpty.
  by destruct (searchUpdates_cases com criteria) as [[e ->]|(updates & count & ->)].
Qed.

(** Every package of a search is the package of an update, made with
    the criteria of the search. *)
Lemma searchUpdates_items com criteria p :
  p ∈ (searchUpdates com criteria).1 →
  ∃ update, parseUpdate update criteria = Some p.
Proof.
  destruct (searchUpdates_cases com criteria) as [[e ->]|(updates & count & ->)];
    cbn [fst]; [by intros ?%elem_of_nil|].
  intros (i & _ & Hi)%list_elem_of_omap. unfold itemPackage in Hi.
  destruct (Item updates i) as [update|]; [|done]. by exists update.
Qed.

(** X21.  A search that fails returns no package, so the manager, which
    replaces the list of a failed search by an empty one, returns the
    two lists as the searches gave them, the installed updates first. *)
Theorem GetPackages_concat com1 com2 :
  (∀ com criteria e, (searchUpdates com criteria).2 = Some e →
                     (searchUpdates com criteria).1 = [])
  ∧ (GetPackages com1 com2).1
    = (GetInstalledUpdates com1).1 ++ (GetAvailableUpdates com2).1.
Proof.
  split.
  - intros com criteria e.
    by destruct (searchUpdates_cases com criteria) as [[e' ->]|(updates & count & ->)].
  - rewrite GetPackages_eq. unfold GetInstalledUpdates, GetAvailableUpdates.
    by rewrite !orEmpty_searchUpdates.
Qed.

Lemma parseUpdate_flags update criteria p :
  parseUpdate update criteria = Some p →
  NeedsUpdate p = negb (Contains criteria "IsInstalled=1")
  ∧ (NeedsUpdate p = false → AvailableVersion p = "")
  ∧ (NeedsUpdate p = true → CurrentVersion p = "").
Proof.
  unfold parseUpdate. destruct (Title update); [|done]. intros [= <-].
  by destruct (Contains criteria "IsInstalled=1").
Qed.

(** X22.  In the list of the Windows manager the update flag tells
    where an entry comes from: an entry has [needsUpdate = false]
    exactly when it is one of the leading entries, those of the search
    for installed updates, and then it has no available version; an
    entry with [needsUpdate = true] has no current version. *)
Theorem GetPackages_flags com1 com2 i p :
  (GetPackages com1 com2).1 !! i = Some p →
  (NeedsUpdate p = false ↔ i < length (GetInstalledUpdates com1).1)
  ∧ (NeedsUpdate p = false → AvailableVersion p = "")
  ∧ (NeedsUpdate p = true → CurrentVersion p = "").
Proof.
  rewrite GetPackages_eq. cbn [fst]. unfold GetInstalledUpdates, GetAvailableUpdates.
  rewrite !orEmpty_searchUpdates. intros Hp.
  apply lookup_app_Some in Hp as [Hp|[Hle Hp]].
  - pose proof (lookup_lt_Some _ _ _ Hp) as Hlt.
    apply list_elem_of_lookup_2, searchUpdates_items in Hp as [update Hu].
    apply parseUpdate_flags in Hu as (Hn & Ha & Hc).
    change (Contains "IsInstalled=1" "IsInstalled=1") with true in Hn.
    split; [done|]. by split.
  - apply list_elem_of_lookup_2, searchUpdates_items in Hp as [update Hu].
    apply parseUpdate_flags in Hu as (Hn & Ha & Hc).
    change (Contains "IsInstalled=0 AND IsHidden=0" "IsInstalled=1") with false in Hn.
    split; [|by split]. rewrite Hn. split; [done|lia].
Qed.

Lemma GetPackages_flags_witness :
  (true = false ↔ 1 < length (GetInstalledUpdates (com_of [msrt 200])).1)
  ∧ (true = false → "3d1e2a54.201" = "")
  ∧ (true = true → "" = "").
Proof.
  apply (GetPackages_flags (com_of [msrt 200]) (com_of [msrt 201]) 1
           (mkPackage "KB890830" "Windows Malicious Software Removal Tool x64 (KB890830)"
              "" "3d1e2a54.201" true false)).
  by vm_compute.
Defined.

(** *** The security flag *)

Lemma securityCategory_true item indices :
  securityCategory item indices = true
  ↔ ∃ i cat, i ∈ indices ∧ item i = Some cat
             ∧ (categoryName cat = Some "Security Updates"
                ∨ categoryName cat = Some "Critical Updates").
Proof.
  induction indices as [|i indices IH]; cbn [securityCategory].
  - split; [done|]. by intros (i & cat & ?%elem_of_nil & _).
  - destruct (item i) as [cat|] eqn:Hi.
    + destruct (categoryName cat) as [catName|] eqn:Hc.
      * destruct (bool_decide (catName = "Security Updates")
                  || bool_decide (catName = "Critical Updates")) eqn:Hb.
        -- split; [|done]. intros _. exists i, cat. split; [by left|].
           split; [done|]. rewrite Hc.
           apply orb_true_iff in Hb as [->%bool_decide_eq_true| ->%bool_decide_eq_true];
             [by left|by right].
        -- rewrite IH. apply orb_false_iff in Hb as [H1%bool_decide_eq_false
                                                       H2%bool_decide_eq_false].
           split.
           ++ intros (j & c & Hj & Hc' & Hn). exists j, c. split; [by right|done].
           ++ intros (j & c & [->|Hj]%elem_of_cons & Hc' & Hn); [|by exists j, c].
              rewrite Hi in Hc'. injection Hc' as <-. rewrite Hc in Hn.
              by destruct Hn as [[= ->]|[= ->]].
      * rewrite IH. split.
        -- intros (j & c & Hj & Hc' & Hn). exists j, c. split; [by right|done].
        -- intros (j & c & [->|Hj]%elem_of_cons & Hc' & Hn); [|by exists j, c].
           rewrite Hi in Hc'. injection Hc' as <-. rewrite Hc in Hn.
           by destruct Hn.
    + rewrite IH. split.
      * intros (j & c & Hj & Hc' & Hn). exists j, c. split; [by right|done].
      * intros (j & c & [->|Hj]%elem_of_cons & Hc' & Hn); [|by exists j, c].
        by rewrite Hi in Hc'.
Qed.

(** X23.  An update is flagged as a security update exactly when its
    severity can be read and is not empty, or when its categories and
    their count can be read and one of the categories below the count
    can be read with the name "Security Updates" or "Critical Updates";
    a category or a name that cannot be read is passed over. *)
Theorem isSecurityUpdate_iff update :
  isSecurityUpdate update = true
  ↔ (∃ severity, MsrcSeverity update = Some severity ∧ severity ≠ "")
    ∨ (∃ categories count i cat,
         Categories update = Some categories
         ∧ categoryCount categories = Some count
         ∧ i < N.to_nat count
         ∧ categoryItem categories i = Some cat
         ∧ (categoryName cat = Some "Security Updates"
            ∨ categoryName cat = Some "Critical Updates")).
Proof.
  unfold isSecurityUpdate.
  assert (Hsev : (∃ severity, MsrcSeverity update = Some severity ∧ severity ≠ "")
                 ↔ match MsrcSeverity update with
                   | Some severity => bool_decide (severity ≠ "")
                   | None => false
                   end = true).
  { destruct (MsrcSeverity update) as [severity|].
    - rewrite bool_decide_eq_true. split; [by intros (? & [= <-] & ?)|by eexists].
    - split; [by intros (? & ? & ?)|done]. }
  destruct (match MsrcSeverity update with
            | Some severity => bool_decide (severity ≠ "")
            | None => false
            end).
  { split; [|done]. intros _. left. by apply Hsev. }
  assert (Hno : ¬ ∃ severity, MsrcSeverity update = Some severity ∧ severity ≠ "").
  { by intros ?%Hsev. }
  destruct (Categories update) as [categories|] eqn:Hcats.
  - destruct (categoryCount categories) as [count|] eqn:Hcount.
    + rewrite securityCategory_true. split.
      * intros (i & cat & Hi & Hc & Hn). right.
        exists categories, count, i, cat.
        apply elem_of_seq in Hi.
        split; [done|]. split; [done|]. split; [lia|]. by split.
      * intros [?|(cs & n & i & cat & [= <-] & Hn' & Hi & Hc & Hn)];
          [by destruct Hno|].
        rewrite Hcount in Hn'. injection Hn' as <-.
        exists i, cat. split; [apply elem_of_seq; lia|done].
    + split; [done|].
      intros [?|(cs & n & i & cat & [= <-] & Hn' & _)]; [by destruct Hno|].
      by rewrite Hcount in Hn'.
  - split; [done|].
    intros [?|(cs & n & i & cat & ? & _)]; [by destruct Hno|done].
Qed.

(** *** The version *)

Lemma append_inj_r s t u : s +:+ t = s +:+ u → t = u.
Proof.
  induction s as [|a s IH]; [done|]. rewrite !app_String. intros [= H]. by apply IH.
Qed.

(** X24.  The revision is part of the version: two updates with the
    same update identifier (or both without a readable one) and
    readable revisions have the same version only when they have the
    same revision. *)
Theorem getUpdateVersion_revision u1 u2 id1 id2 r1 r2 :
  Identity u1 = Some id1 → Identity u2 = Some id2 →
  UpdateID id1 = UpdateID id2 →
  RevisionNumber id1 = Some r1 → RevisionNumber id2 = Some r2 →
  getUpdateVersion u1 = getUpdateVersion u2 → r1 = r2.
Proof.
  unfold getUpdateVersion. intros -> -> <- -> ->.
  destruct (UpdateID id1) as [updateID|].
  - intros H%append_inj_r%append_inj_r. by apply (inj pretty).
  - intros H%append_inj_r. by apply (inj pretty).
Qed.

Lemma getUpdateVersion_revision_witness : 200%Z = 200%Z.
Proof.
  apply (getUpdateVersion_revision (msrt 200) (msrt 200)
           (mkIdentity (Some 200%Z) (Some "3d1e2a54"))
           (mkIdentity (Some 200%Z) (Some "3d1e2a54")) 200 200); reflexivity.
Defined.

(** *** The invariant on versions *)

Lemma parseUpdate_versionInvariant_witness :
  versionInvariant
    (mkPackage "KB890830" "Windows Malicious Software Removal Tool x64 (KB890830)"
       "3d1e2a54.200" "" false false).
Proof.
  apply (parseUpdate_versionInvariant (msrt 200) "IsInstalled=1"
           (mkIdentity (Some 200%Z) (Some "3d1e2a54")) 200); by vm_compute.
Defined.

Lemma CombinePackageData_versionInvariant_witness :
  Forall versionInvariant (CombinePackageData iter_kb installed_kb [kb1_up]).
Proof.
  apply (CombinePackageData_versionInvariant iter_kb installed_kb [kb1_up]
           range_order_kb).
  - intros k v H. unfold installed_kb in H.
    apply lookup_insert_Some in H as [[<- <-]|[_ H]]; [done|].
    apply lookup_insert_Some in H as [[<- <-]|[_ H]]; [done|].
    by rewrite lookup_empty in H.
  - by repeat constructor.
Defined.

(** *** The report *)

Lemma fold_countStep packageList n s :
  fold_left countStep packageList (n, s)
  = (n + length (filter (λ p, NeedsUpdate p = true) packageList),
     s + length (filter (λ p, IsSecurityUpdate p = true) packageList)).
Proof.
  revert n s. induction packageList as [|p l IH]; intros n s.
  - cbn. f_equal; lia.
  - cbn [fold_left]. unfold countStep at 2. cbn [fst snd].
    rewrite IH, !filter_cons.
    destruct (NeedsUpdate p), (IsSecurityUpdate p); f_equal;
      repeat case_decide; try done; cbn [length]; lia.
Qed.

Lemma filter_needsUpdate_search com criteria :
  length (filter (λ p, NeedsUpdate p = true) (searchUpdates com criteria).1)
  = if Contains criteria "IsInstalled=1" then 0
    else length (searchUpdates com criteria).1.
Proof.
  assert (H : Forall (λ p, NeedsUpdate p = negb (Contains criteria "IsInstalled=1"))
                (searchUpdates com criteria).1).
  { apply Forall_forall. intros p [update Hu]%searchUpdates_items.
    by apply parseUpdate_flags in Hu as [? _]. }
  induction H as [|p l Hp _ IH].
  - by destruct (Contains criteria "IsInstalled=1").
  - rewrite filter_cons, Hp.
    destruct (Contains criteria "IsInstalled=1"); cbn [negb] in *.
    + by rewrite decide_False by done.
    + rewrite decide_True by done. cbn [length]. by rewrite IH.
Qed.

(** X27.  The package step of the report never ends it: it always
    gives the list of the manager, and the number of updates it counts
    as needed is the number of packages of the search for available
    updates, the number it counts as security updates that of the
    flagged packages of either search. *)
Theorem reportPackages_counts com1 com2 :
  reportPackages com1 com2
  = inl ((GetInstalledUpdates com1).1 ++ (GetAvailableUpdates com2).1,
         (length (GetAvailableUpdates com2).1,
          length (filter (λ p, IsSecurityUpdate p = true) (GetInstalledUpdates com1).1)
          + length (filter (λ p, IsSecurityUpdate p = true)
                      (GetAvailableUpdates com2).1))).
Proof.
  unfold reportPackages, countPackages. rewrite GetPackages_eq.
  unfold GetInstalledUpdates, GetAvailableUpdates.
  rewrite !orEmpty_searchUpdates, fold_countStep, !filter_app, !List.length_app.
  rewrite !filter_needsUpdate_search.
  change (Contains "IsInstalled=1" "IsInstalled=1") with true.
  change (Contains "IsInstalled=0 AND IsHidden=0" "IsInstalled=1") with false.
  done.
Qed.

End WindowsMore.
